(** * Ultrasonic rangefinder: round-robin scheduler and distance readings

    A shallow embedding of [wpilib/ultrasonic.py] (class [Ultrasonic]):
    the class attributes shared by every instance, the background task
    [ultrasonicChecker], the mode switch [setAutomaticMode], and the
    per-sensor readings.

    Python floats are IEEE binary64 numbers and are modelled by Rocq's
    primitive floats, so that every arithmetic expression of the source
    is evaluated exactly as CPython evaluates it. *)

From Stdlib Require Import ZArith Floats.
From stdpp Require Import base list.

Set Default Proof Using "Type".
(* Decimal literals denote the nearest binary64 value, as in Python. *)
Set Warnings "-inexact-float".
Open Scope Z_scope.

(** ** Python values *)

(** Python numbers: the range accessors return the [int] 0 or a [float]. *)
Inductive pynum :=
| Int (z : Z)
| Float (f : float).

(** The values that can reach the [units] attribute.  It is documented
    as one of the two [Unit] constants but nothing types it, so any value
    can be passed. *)
Inductive pyval :=
| PyNone
| PyBool (b : bool)
| PyNum (n : pynum)
| PyStr (s : list Byte.byte).

(** The mathematical value of the float [f] is the integer [z] (Python
    compares an [int] with a [float] exactly; infinities and NaN are
    equal to no integer). *)
Definition float_eq_Z (f : float) (z : Z) : bool :=
  match Prim2SF f with
  | S754_zero _ => z =? 0
  | S754_finite s m e =>
      let v := if s then Z.neg m else Z.pos m in
      if 0 <=? e then z =? v * 2 ^ e else z * 2 ^ (- e) =? v
  | S754_infinity _ | S754_nan => false
  end.

(** [v == k] for an integer constant [k]: [bool] is a subclass of [int],
    [None] and strings are equal to no number. *)
Definition py_eq_int (v : pyval) (k : Z) : bool :=
  match v with
  | PyNone => false
  | PyBool b => (if b then 1 else 0) =? k
  | PyNum (Int z) => z =? k
  | PyNum (Float f) => float_eq_Z f k
  | PyStr _ => false
  end.

(** [v in [k1, k2, ...]] for a list of integer constants. *)
Definition py_in_ints (v : pyval) (ks : list Z) : bool :=
  existsb (py_eq_int v) ks.

(** Conversion of an [int] to a [float], rounding to nearest even. *)
Definition Z2float (z : Z) : float :=
  SF2Prim (binary_normalize prec emax z 0 false).

(** [n * f] for a float [f]: an [int] operand is converted first. *)
Definition py_mul_float (n : pynum) (f : float) : pynum :=
  match n with
  | Int z => Float (Z2float z * f)
  | Float g => Float (g * f)
  end.

(** ** The class [Ultrasonic.Unit] *)
Module Unit.
Definition kInches : Z := 0.
Definition kMillimeters : Z := 1.
End Unit.

(** ** Class constants *)

(** Time (sec) for the ping trigger pulse: [10 * 1e-6]. *)
Definition kPingTime : float := (Z2float 10 * 1e-6)%float.
Definition kPriority : Z := 90.
Definition kMaxUltrasonicTime : float := 0.1%float.
Definition kSpeedOfSoundInchesPerSec : float := (1130.0 * 12.0)%float.

(** The literal of [Timer.delay(.1)] in [ultrasonicChecker] and of
    [Timer.delay(.15)] in [setAutomaticMode]. *)
Definition settle_delay : float := 0.1%float.
Definition poll_delay : float := 0.15%float.

(** ** The echo-timing counter *)

(** Modelled from the spec: the class [Counter] of [wpilib.counter] is an
    external collaborator whose source is not part of this module.  The
    spec gives it three operations, [reset()], [edgeCount() -> int] (the
    source calls it [get]) and [period() -> seconds] ([getPeriod]): the
    count is the number of edges observed since the last reset.  The two
    configuration calls of the constructor are recorded as they are made. *)
Record Counter := mkCounter {
  source : Z;                  (* the echo channel it listens to *)
  edges : Z;                   (* edges seen since the last reset *)
  period : float;              (* last measured period, in seconds *)
  maxPeriod : option float;
  semiPeriodMode : bool
}.

Module Counter.
Definition new (echoChannel : Z) : Counter :=
  mkCounter echoChannel 0 0%float None false.
Definition setMaxPeriod (p : float) (c : Counter) : Counter :=
  mkCounter (source c) (edges c) (period c) (Some p) (semiPeriodMode c).
Definition setSemiPeriodMode (b : bool) (c : Counter) : Counter :=
  mkCounter (source c) (edges c) (period c) (maxPeriod c) b.
Definition reset (c : Counter) : Counter :=
  mkCounter (source c) 0 (period c) (maxPeriod c) (semiPeriodMode c).
Definition get (c : Counter) : Z := edges c.
Definition getPeriod (c : Counter) : float := period c.
(** The hardware sees one more edge on the echo line and latches the
    period [p] it measured. *)
Definition edge (p : float) (c : Counter) : Counter :=
  mkCounter (source c) (edges c + 1) p (maxPeriod c) (semiPeriodMode c).
End Counter.

(** ** Instances *)

(** The instance attributes set by [__init__].  The two channels are
    [DigitalOutput] / [DigitalInput] objects of the surrounding library;
    only their channel number is used here. *)
Record Ultrasonic := mkUltrasonic {
  pingChannel : Z;
  echoChannel : Z;
  units : pyval;
  enabled : bool;
  counter : Counter
}.

Definition with_units (v : pyval) (u : Ultrasonic) : Ultrasonic :=
  mkUltrasonic (pingChannel u) (echoChannel u) v (enabled u) (counter u).
Definition with_enabled (b : bool) (u : Ultrasonic) : Ultrasonic :=
  mkUltrasonic (pingChannel u) (echoChannel u) (units u) b (counter u).
Definition with_counter (c : Counter) (u : Ultrasonic) : Ultrasonic :=
  mkUltrasonic (pingChannel u) (echoChannel u) (units u) (enabled u) c.

(** [u.counter.reset()] *)
Definition counter_reset (u : Ultrasonic) : Ultrasonic :=
  with_counter (Counter.reset (counter u)) u.

(** ** Readings (lines 188-261) *)

Definition isRangeValid (u : Ultrasonic) : bool :=
  1 <? Counter.get (counter u).

Definition getRangeInches (u : Ultrasonic) : pynum :=
  if isRangeValid u
  then Float (Counter.getPeriod (counter u) * kSpeedOfSoundInchesPerSec / 2.0)
  else Int 0.

Definition getRangeMM (u : Ultrasonic) : pynum :=
  py_mul_float (getRangeInches u) 25.4.

Definition getDistanceUnits (u : Ultrasonic) : pyval := units u.
Definition isEnabled (u : Ultrasonic) : bool := enabled u.

Definition pidGet (u : Ultrasonic) : pynum :=
  if py_eq_int (units u) Unit.kInches then getRangeInches u
  else if py_eq_int (units u) Unit.kMillimeters then getRangeMM u
  else Float 0.0.

(** ** Effects on the external collaborators *)

(** Modelled from the spec: pulse emission, the delay primitive and the
    registration hooks ([DigitalOutput.pulse], [Timer.delay],
    [hal.HALReport], [LiveWindow.addSensor]) are external collaborators
    whose source is not part of this module.  A call to one of them is
    recorded with its arguments, in the order the code makes it. *)
Inductive event :=
| EvPulse (channel : Z) (seconds : float)   (* pingChannel.pulse(channel, t) *)
| EvDelay (seconds : float)                  (* Timer.delay(t) *)
| EvCounterReset (sensor : nat)              (* counter.reset() of that instance *)
| EvHALReport (count : nat)                  (* hal.HALReport(kResourceType_Ultrasonic, n) *)
| EvLiveWindow (channel : Z) (sensor : nat). (* LiveWindow.addSensor(...) *)

(** ** Threads *)

(** Where the body of [ultrasonicChecker] stands: about to evaluate the
    [while] test (line 77), or inside the [for] of line 79 with the
    instances still to visit and the value of [count]. *)
Inductive checker_pc :=
| AtWhile
| InFor (rest : list nat) (count : nat).

(** A [threading.Thread] object of the Python standard library whose
    target is [ultrasonicChecker]: not yet started, started and running
    its target, or finished.  [is_alive()] holds in the second state
    only; [start()] must be called at most once per thread object and
    raises [RuntimeError] when the thread was started before. *)
Inductive thread :=
| Initial
| Running (pc : checker_pc)
| Stopped.

Definition thread_alive (th : thread) : bool :=
  match th with Running _ => true | _ => false end.

(** ** Class state *)

(** The class attributes of [Ultrasonic] (lines 50-58) together with the
    objects they refer to.  [sensors] is the [WeakSet]: slot [i] holds
    instance [i], or [None] once that instance has been collected.  An
    iteration over the set visits the slots by index; the order in which
    a [WeakSet] yields its elements is not specified, so the order of
    the visits within one iteration is a choice of the model.
    [threads] holds every [Thread] object created so far and [_thread]
    refers to one of them.  [log] collects the effects. *)
Record world := mkWorld {
  automaticEnabled : bool;
  sensors : list (option Ultrasonic);
  instances : nat;
  threads : list thread;
  _thread : option nat;
  daemon : option bool;
  log : list event
}.

Definition initial_world : world :=
  mkWorld false [] 0 [] None None [].

Definition with_automaticEnabled (b : bool) (w : world) : world :=
  mkWorld b (sensors w) (instances w) (threads w) (_thread w) (daemon w) (log w).
Definition with_sensors (l : list (option Ultrasonic)) (w : world) : world :=
  mkWorld (automaticEnabled w) l (instances w) (threads w) (_thread w)
          (daemon w) (log w).
Definition with_instances (n : nat) (w : world) : world :=
  mkWorld (automaticEnabled w) (sensors w) n (threads w) (_thread w)
          (daemon w) (log w).
Definition with_threads (l : list thread) (w : world) : world :=
  mkWorld (automaticEnabled w) (sensors w) (instances w) l (_thread w)
          (daemon w) (log w).
Definition with_thread (t : option nat) (w : world) : world :=
  mkWorld (automaticEnabled w) (sensors w) (instances w) (threads w) t
          (daemon w) (log w).
Definition with_daemon (d : option bool) (w : world) : world :=
  mkWorld (automaticEnabled w) (sensors w) (instances w) (threads w)
          (_thread w) d (log w).
Definition emit (evs : list event) (w : world) : world :=
  mkWorld (automaticEnabled w) (sensors w) (instances w) (threads w)
          (_thread w) (daemon w) (log w ++ evs).

(** The instance behind slot [i], if it is still there. *)
Definition sensor_at (i : nat) (w : world) : option Ultrasonic :=
  mjoin (sensors w !! i).

(** [Thread.is_alive()] of thread object [t]. *)
Definition is_alive (t : nat) (w : world) : bool :=
  match threads w !! t with
  | Some th => thread_alive th
  | None => false
  end.

(** Number of execution contexts running the scheduler. *)
Definition active_contexts (w : world) : nat :=
  length (filter (fun th => thread_alive th = true) (threads w)).

(** [isAutomaticMode()]: the flag, read under the class lock.  The lock
    makes the read one indivisible step, which is how it is modelled. *)
Definition isAutomaticMode (w : world) : bool := automaticEnabled w.

(** ** The background task (lines 66-91) *)

(** One step of [ultrasonicChecker] from the position [pc]: the new class
    state and the next position, [None] when the function returns.

    - [AtWhile]: the test of the [while]; when it holds [count] is set to
      0 and the iteration over [Ultrasonic.sensors] begins.  The slots to
      visit are those present at that moment: the docstring (lines 71-75)
      requires that no sensor changes while the task runs, and an
      instance registered during a pass is not part of that pass.
    - [InFor (i :: rest) count]: one turn of the [for] body for slot [i],
      from the check of the flag to the end of [Timer.delay(.1)].
    - [InFor [] count]: the [for] is exhausted, [if not count: return]. *)
Definition ultrasonicChecker_step (pc : checker_pc) (w : world)
  : world * option checker_pc :=
  match pc with
  | AtWhile =>
      if isAutomaticMode w
      then (w, Some (InFor (seq 0 (length (sensors w))) 0))
      else (w, None)
  | InFor (i :: rest) count =>
      if negb (isAutomaticMode w) then (w, None)
      else
        match sensor_at i w with
        | None => (w, Some (InFor rest count))           (* continue *)
        | Some u =>
            let count := S count in
            let w :=
              if isEnabled u
              then emit [EvPulse (pingChannel u) kPingTime] w  (* do the ping *)
              else w in
            (emit [EvDelay settle_delay] w, Some (InFor rest count))
        end
  | InFor [] count =>
      match count with
      | O => (w, None)
      | S _ => (w, Some AtWhile)
      end
  end.

(** Thread object [t] is put in state [th]. *)
Definition set_thread (t : nat) (th : thread) (w : world) : world :=
  with_threads (<[t := th]> (threads w)) w.

(** The state of a thread after a step of its target. *)
Definition after_step (next : option checker_pc) : thread :=
  match next with Some pc => Running pc | None => Stopped end.

(** Thread [t] runs one step of its target, if it is alive. *)
Definition thread_step (t : nat) (w : world) : world :=
  match threads w !! t with
  | Some (Running pc) =>
      let '(w', next) := ultrasonicChecker_step pc w in
      set_thread t (after_step next) w'
  | _ => w
  end.

(** What happens besides the calling thread: a scheduler thread advances
    by one step, or the echo line of a sensor sees an edge. *)
Inductive bg_event :=
| BgStep (t : nat)
| BgEdge (sensor : nat) (seconds : float).

Definition echo_edge (i : nat) (p : float) (w : world) : world :=
  match sensor_at i w with
  | Some u =>
      with_sensors
        (<[i := Some (with_counter (Counter.edge p (counter u)) u)]> (sensors w)) w
  | None => w
  end.

Definition bg_run1 (w : world) (e : bg_event) : world :=
  match e with
  | BgStep t => thread_step t w
  | BgEdge i p => echo_edge i p w
  end.

Definition bg_run (evs : list bg_event) (w : world) : world :=
  foldl bg_run1 w evs.

(** Thread [t] alone runs [n] steps. *)
Definition run_thread (t n : nat) (w : world) : world :=
  bg_run (replicate n (BgStep t)) w.

(** ** Resetting every counter (lines 156-158 and 170-172) *)

(** The slots of [l] that still hold an instance, numbered from [k]. *)
Fixpoint live_from (k : nat) (l : list (option Ultrasonic)) : list nat :=
  match l with
  | [] => []
  | Some _ :: l' => k :: live_from (S k) l'
  | None :: l' => live_from (S k) l'
  end.

Definition live_ids (w : world) : list nat := live_from 0 (sensors w).

(** [for u in Ultrasonic.sensors: if u is not None: u.counter.reset()] *)
Definition reset_all (w : world) : world :=
  emit (EvCounterReset <$> live_ids w)
       (with_sensors (option_map counter_reset <$> sensors w) w).

(** ** Outcomes of a call *)

Inductive exn :=
| AttributeError    (* an attribute of [None] is accessed *)
| RuntimeError      (* [Thread.start()] on a thread started before *)
| ValueError        (* raised by [setDistanceUnits] *)
| ReferenceError.   (* [self] is not a live instance; no Python call does this *)

(** A call returns, raises, or is still blocked in a wait when the
    supplied schedule of background events is used up. *)
Inductive outcome :=
| Returned (w : world)
| Raised (e : exn) (w : world)
| Blocked (w : world).

Definition final (o : outcome) : world :=
  match o with Returned w | Raised _ w | Blocked w => w end.

(** ** Construction (lines 93-133) *)

(** [Ultrasonic(pingChannel, echoChannel, units)]: the new instance takes
    the next slot of [sensors]; the result is that slot and the new class
    state.  A thread object is created when there is none or the current
    one is not alive. *)
Definition __init__ (pingChannel echoChannel : Z) (units : pyval) (w : world)
  : nat * world :=
  let self := length (sensors w) in
  let w :=
    match _thread w with
    | Some t =>
        if is_alive t w then w
        else with_daemon (Some true)
               (with_thread (Some (length (threads w)))
                  (with_threads (threads w ++ [Initial]) w))
    | None =>
        with_daemon (Some true)
          (with_thread (Some (length (threads w)))
             (with_threads (threads w ++ [Initial]) w))
    end in
  (* set up counter for this sensor *)
  let c := Counter.new echoChannel in
  let c := Counter.setMaxPeriod 1.0 c in
  let c := Counter.setSemiPeriodMode true c in
  let c := Counter.reset c in
  let w := emit [EvCounterReset self] w in
  let u := mkUltrasonic pingChannel echoChannel units true c in
  let w := with_sensors (sensors w ++ [Some u]) w in
  let w := with_instances (S (instances w)) w in
  let w := emit [EvHALReport (instances w)] w in
  (self, emit [EvLiveWindow echoChannel self] w).

(** The interpreter collects instance [i]: its weak reference dies. *)
Definition collect (i : nat) (w : world) : world :=
  with_sensors (<[i := None]> (sensors w)) w.

(** ** Switching the mode (lines 135-172) *)

(** [Ultrasonic._thread.start()] *)
Definition thread_start (w : world) : outcome :=
  match _thread w with
  | None => Raised AttributeError w
  | Some t =>
      match threads w !! t with
      | Some Initial => Returned (set_thread t (Running AtWhile) w)
      | _ => Raised RuntimeError w
      end
  end.

(** [while Ultrasonic._thread.is_alive(): Timer.delay(.15)].  Each element
    of [polls] lists what the rest of the system does during one delay. *)
Fixpoint wait_stopped (polls : list (list bg_event)) (w : world) : outcome :=
  match _thread w with
  | None => Raised AttributeError w
  | Some t =>
      if is_alive t w then
        match polls with
        | [] => Blocked w
        | evs :: polls' =>
            wait_stopped polls' (bg_run evs (emit [EvDelay poll_delay] w))
        end
      else Returned w
  end.

(** [setAutomaticMode(enabling)].  The body reads and writes class
    attributes only, so [self] does not appear. *)
Definition setAutomaticMode (enabling : bool) (polls : list (list bg_event))
    (w : world) : outcome :=
  if enabling && isAutomaticMode w then Returned w   (* ignore the case of no change *)
  else
    let w := with_automaticEnabled enabling w in
    if enabling then
      (* Clear all the counters so no data is valid *)
      let w := reset_all w in
      (* Start round robin task *)
      thread_start w
    else
      (* Wait for background task to stop running *)
      match wait_stopped polls w with
      | Returned w => Returned (reset_all w)
      | o => o
      end.

(** ** Manual ping (lines 174-186) *)

Definition ping (self : nat) (polls : list (list bg_event)) (w : world)
  : outcome :=
  match setAutomaticMode false polls w with
  | Returned w =>
      match sensor_at self w with
      | Some u =>
          let w := with_sensors (<[self := Some (counter_reset u)]> (sensors w)) w in
          let w := emit [EvCounterReset self] w in
          Returned (emit [EvPulse (pingChannel u) kPingTime] w)
      | None => Raised ReferenceError w
      end
  | o => o
  end.

(** ** Units and the enabled flag (lines 236-269) *)

Definition setDistanceUnits (self : nat) (v : pyval) (w : world) : outcome :=
  match sensor_at self w with
  | Some u =>
      if negb (py_in_ints v [Unit.kInches; Unit.kMillimeters])
      then Raised ValueError w
      else Returned (with_sensors (<[self := Some (with_units v u)]> (sensors w)) w)
  | None => Raised ReferenceError w
  end.

Definition setEnabled (self : nat) (enable : bool) (w : world) : outcome :=
  match sensor_at self w with
  | Some u =>
      Returned (with_sensors (<[self := Some (with_enabled enable u)]> (sensors w)) w)
  | None => Raised ReferenceError w
  end.

(** The counter of a new instance: configured, then reset. *)
Definition fresh_counter (echo : Z) : Counter :=
  Counter.reset
    (Counter.setSemiPeriodMode true
       (Counter.setMaxPeriod 1.0 (Counter.new echo))).

(** ** Sample states *)

(** One sensor on channels 1 (ping) and 2 (echo), reading inches. *)
Definition one_sensor : world :=
  (__init__ 1 2 (PyNum (Int Unit.kInches)) initial_world).2.

(** The same with automatic mode switched on. *)
Definition scheduling : world := final (setAutomaticMode true [] one_sensor).

(** A sensor whose counter has seen [n] edges and latched a period of
    2 ms. *)
Definition sample_counter (n : Z) : Counter :=
  mkCounter 2 n 0.002%float (Some 1.0%float) true.
Definition sample_sensor (n : Z) (v : pyval) : Ultrasonic :=
  mkUltrasonic 1 2 v true (sample_counter n).

(** The only instance has been collected. *)
Definition no_sensor : world := collect 0 one_sensor.

(** The scheduler thread has passed the [while] test and is about to
    visit the only instance. *)
Definition visiting : world := run_thread 0 1 scheduling.

(** Automatic mode switched on and off again; the scheduler thread got
    one step while the caller slept. *)
Definition idle : world := final (setAutomaticMode false [[BgStep 0]] scheduling).

(** The count of a counter that is reset and then sees the edges [ps],
    oldest first. *)
Definition edges_after_reset (ps : list float) (c : Counter) : Counter :=
  foldl (fun c p => Counter.edge p c) (Counter.reset c) ps.

(** ** Programs *)

(** What the application and its surroundings can do to the class state:
    the calls of the public interface, the collection of an instance,
    and a background event between two calls. *)
Inductive call :=
| New (pingChannel echoChannel : Z) (units : pyval)
| SetAutomaticMode (enabling : bool) (polls : list (list bg_event))
| Ping (self : nat) (polls : list (list bg_event))
| SetDistanceUnits (self : nat) (v : pyval)
| SetEnabled (self : nat) (enable : bool)
| Collect (i : nat)
| Background (e : bg_event).

Definition perform (c : call) (w : world) : outcome :=
  match c with
  | New p e v => Returned (__init__ p e v w).2
  | SetAutomaticMode b polls => setAutomaticMode b polls w
  | Ping self polls => ping self polls w
  | SetDistanceUnits self v => setDistanceUnits self v w
  | SetEnabled self b => setEnabled self b w
  | Collect i => Returned (collect i w)
  | Background e => Returned (bg_run1 w e)
  end.

(** The class state after a sequence of calls.  The state a call leaves
    is used for the next one also when the call raised (the application
    may catch the exception) or was still waiting. *)
Definition perform_all (cs : list call) (w : world) : world :=
  foldl (fun w c => final (perform c w)) w cs.

(** Only the thread the class refers to is alive, if any. *)
Definition only_current_alive (w : world) : Prop :=
  ∀ t, is_alive t w = true → _thread w = Some t.

(** [w'] refers to the same thread as [w] and has no more threads alive. *)
Definition no_new_context (w w' : world) : Prop :=
  _thread w' = _thread w ∧ ∀ t, is_alive t w' = true → is_alive t w = true.

(** ** Auxiliary notions used in the statements *)

(** What one turn of the [for] body asks of the hardware for a live
    instance: the pulse when it is enabled, then the wait. *)
Definition visit_events (u : Ultrasonic) : list event :=
  (if isEnabled u then [EvPulse (pingChannel u) kPingTime] else [])
  ++ [EvDelay settle_delay].

(** Steps a scheduler thread still takes once the flag is off: one to
    notice it, one more when it first has to leave an exhausted [for]. *)
Definition steps_to_stop (th : thread) : nat :=
  match th with
  | Running (InFor [] (S _)) => 2
  | Running _ => 1
  | Initial | Stopped => 0
  end.

(** Number of steps thread [t] is granted by a list of background events. *)
Fixpoint steps_of (t : nat) (evs : list bg_event) : nat :=
  match evs with
  | [] => 0
  | BgStep t' :: evs' => (if decide (t' = t) then 1 else 0) + steps_of t evs'
  | BgEdge _ _ :: evs' => steps_of t evs'
  end.

(** Two instances that differ in their counter at most. *)
Definition same_config (u u' : Ultrasonic) : Prop :=
  pingChannel u' = pingChannel u ∧ echoChannel u' = echoChannel u ∧
  units u' = units u ∧ enabled u' = enabled u.

(** ** Notions used by the properties of whole passes and programs *)

(** The live instances behind the slots [rest], in that order. *)
Definition live_at (rest : list nat) (w : world) : list Ultrasonic :=
  omap (fun i => sensor_at i w) rest.

(** The live instances of the registry, in slot order. *)
Definition live_sensors (w : world) : list Ultrasonic := omap id (sensors w).

(** The state of the scheduler thread at the end of a pass that counted
    [n] instances: back to the [while] test, or finished when [n] is 0. *)
Definition after_pass (n : nat) : thread :=
  match n with O => Stopped | S _ => Running AtWhile end.

(** The call constructs an instance. *)
Definition is_New (c : call) : bool :=
  match c with New _ _ _ => true | _ => false end.

(** No thread is alive. *)
Definition no_context (w : world) : Prop := ∀ t, is_alive t w = false.

(** The scheduler thread the class refers to has finished and no other
    thread is alive. *)
Definition scheduler_finished (t : nat) (w : world) : Prop :=
  _thread w = Some t ∧ threads w !! t = Some Stopped ∧ no_context w.

(** What every call but the constructor keeps: the instance count, the
    number of slots, the thread the class refers to and the number of
    thread objects. *)
Definition same_registry (w w' : world) : Prop :=
  instances w' = instances w ∧
  length (sensors w') = length (sensors w) ∧
  _thread w' = _thread w ∧
  length (threads w') = length (threads w).

(** What holds of the registry in every state a program can reach. *)
Definition registry_ok (w : world) : Prop :=
  instances w = length (sensors w) ∧
  (sensors w ≠ [] → is_Some (_thread w)) ∧
  (∀ t, _thread w = Some t → (t < length (threads w))%nat).

(** Automatic mode was switched on after the only instance had been
    collected, and the scheduler thread has run its pass. *)
Definition self_stopped : world :=
  run_thread 0 3 (final (setAutomaticMode true [] no_sensor)).

(** * Properties *)

(** ** Readings *)

Section readings.
Implicit Types (u : Ultrasonic) (c : Counter).

Lemma isRangeValid_spec u : isRangeValid u = true ↔ 1 < Counter.get (counter u).
Proof. unfold isRangeValid. apply Z.ltb_lt. Qed.

Lemma isRangeValid_false u : isRangeValid u = false ↔ Counter.get (counter u) ≤ 1.
Proof. unfold isRangeValid. apply Z.ltb_ge. Qed.

Lemma isRangeValid_counter_reset u : isRangeValid (counter_reset u) = false.
Proof. reflexivity. Qed.

(** The count after a reset followed by the edges [ps], oldest first. *)
Lemma get_edges_after_reset c (ps : list float) :
  Counter.get (edges_after_reset ps c) = Z.of_nat (length ps).
Proof.
  unfold edges_after_reset.
  assert (H : ∀ c', Counter.get (foldl (fun c p => Counter.edge p c) c' ps)
                    = Counter.get c' + Z.of_nat (length ps)).
  { induction ps as [|p ps IH]; intros c'; simpl.
    - lia.
    - rewrite IH. unfold Counter.get, Counter.edge. simpl. lia. }
  rewrite H. unfold Counter.get, Counter.reset. simpl. lia.
Qed.

Lemma kSpeedOfSoundInchesPerSec_value :
  kSpeedOfSoundInchesPerSec = 13560%float.
Proof. reflexivity. Qed.

Lemma getRangeMM_invalid u : isRangeValid u = false → getRangeMM u = Float 0.
Proof. intros H. unfold getRangeMM, getRangeInches. rewrite H. reflexivity. Qed.
End readings.

(** C4: [getRangeInches] is exactly the integer 0 when the range is not
    valid and [period * (1130 * 12) / 2] when it is, the period being the
    counter's reading in seconds; [getRangeMM] is that reading times
    25.4: the float [0 * 25.4], which is 0.0, when the range is not
    valid, and [period * (1130 * 12) / 2 * 25.4] when it is; whatever
    [getRangeInches] returns, an integer or a float, [getRangeMM] returns
    the float product of that number and 25.4. *)
Theorem C4_range_inches_and_mm (u : Ultrasonic) :
  (isRangeValid u = false →
     getRangeInches u = Int 0 ∧
     getRangeMM u = Float (0 * 25.4) ∧ getRangeMM u = Float 0) ∧
  (isRangeValid u = true →
     getRangeInches u
     = Float (Counter.getPeriod (counter u) * (1130 * 12) / 2) ∧
     getRangeMM u
     = Float (Counter.getPeriod (counter u) * (1130 * 12) / 2 * 25.4)) ∧
  (∀ z, getRangeInches u = Int z → getRangeMM u = Float (Z2float z * 25.4)) ∧
  (∀ f, getRangeInches u = Float f → getRangeMM u = Float (f * 25.4)).
Proof.
  unfold getRangeMM, getRangeInches. split; [|split; [|split]].
  - intros ->. by repeat split.
  - intros ->. by split.
  - by intros z ->.
  - by intros f ->.
Qed.

Lemma C4_range_inches_and_mm_witness :
  (getRangeInches (sample_sensor 1 PyNone) = Int 0 ∧
   getRangeMM (sample_sensor 1 PyNone) = Float 0) ∧
  (getRangeInches (sample_sensor 2 PyNone) = Float 13.56 ∧
   getRangeMM (sample_sensor 2 PyNone) = Float (13.56 * 25.4)) ∧
  getRangeMM (sample_sensor 2 PyNone) = Float 344.42399999999998.
Proof.
  split; [|split].
  - destruct (proj1 (C4_range_inches_and_mm (sample_sensor 1 PyNone)) eq_refl)
      as (Hin & _ & Hmm).
    by split.
  - exact (proj1 (proj2 (C4_range_inches_and_mm (sample_sensor 2 PyNone)))
             eq_refl).
  - exact (proj2 (proj2 (proj2 (C4_range_inches_and_mm (sample_sensor 2 PyNone))))
             13.56%float eq_refl).
Defined.

(** ** Slots of the registry *)

Section slots.
Implicit Types (w : world) (u : Ultrasonic) (l : list (option Ultrasonic)).

Lemma sensor_at_lookup i w u :
  sensor_at i w = Some u ↔ sensors w !! i = Some (Some u).
Proof.
  unfold sensor_at. destruct (sensors w !! i) as [[u'|]|]; simpl; split;
    intros H; by simplify_eq.
Qed.

Lemma sensor_at_lt i w u : sensor_at i w = Some u → (i < length (sensors w))%nat.
Proof. rewrite sensor_at_lookup. apply lookup_lt_Some. Qed.

Lemma sensor_at_store_eq i w u o :
  sensor_at i w = Some u →
  sensor_at i (with_sensors (<[i := o]> (sensors w)) w) = o.
Proof.
  intros H%sensor_at_lt. unfold sensor_at. simpl.
  by rewrite list_lookup_insert_eq.
Qed.

Lemma sensor_at_store_ne i j w o :
  i ≠ j → sensor_at j (with_sensors (<[i := o]> (sensors w)) w) = sensor_at j w.
Proof. intros H. unfold sensor_at. simpl. by rewrite list_lookup_insert_ne. Qed.

Lemma sensor_at_new i w u :
  sensor_at i (with_sensors (sensors w ++ [Some u]) w)
  = if decide (i = length (sensors w)) then Some u else sensor_at i w.
Proof.
  unfold sensor_at. simpl. case_decide as Hi.
  - subst i. by rewrite lookup_app_r, Nat.sub_diag.
  - destruct (decide (i < length (sensors w))%nat) as [Hlt|Hge].
    + by rewrite lookup_app_l.
    + rewrite !lookup_ge_None_2; [done|lia|].
      rewrite length_app. simpl. lia.
Qed.
End slots.

(** ** Units *)

Section units.
Implicit Types (w : world) (u : Ultrasonic) (v : pyval).

Lemma py_in_units v :
  py_in_ints v [Unit.kInches; Unit.kMillimeters]
  = py_eq_int v 0 || py_eq_int v 1.
Proof. unfold py_in_ints. simpl. by rewrite orb_false_r. Qed.

Lemma py_eq_int_Int (z k : Z) : py_eq_int (PyNum (Int z)) k = true ↔ z = k.
Proof. simpl. apply Z.eqb_eq. Qed.

Lemma setDistanceUnits_invalid self v w u :
  sensor_at self w = Some u →
  py_eq_int v 0 = false → py_eq_int v 1 = false →
  setDistanceUnits self v w = Raised ValueError w.
Proof.
  intros Hu H0 H1. unfold setDistanceUnits.
  by rewrite Hu, py_in_units, H0, H1.
Qed.

Lemma setDistanceUnits_valid self v w u :
  sensor_at self w = Some u →
  py_eq_int v 0 || py_eq_int v 1 = true →
  setDistanceUnits self v w
  = Returned (with_sensors (<[self := Some (with_units v u)]> (sensors w)) w).
Proof.
  intros Hu Hv. unfold setDistanceUnits.
  by rewrite Hu, py_in_units, Hv.
Qed.

Lemma pidGet_with_units v u :
  pidGet (with_units v u)
  = if py_eq_int v 0 then getRangeInches u
    else if py_eq_int v 1 then getRangeMM u else Float 0.
Proof. reflexivity. Qed.
End units.

(** C8: [setDistanceUnits(v)] on a live instance raises [ValueError] for
    every [v] that is equal to neither of the two units 0 and 1 (in
    particular for every integer other than 0 and 1) and then leaves the
    class state, hence the configured unit, as it was; for a recognized
    unit it returns, stores [v] in that instance alone, and [pidGet]
    reads the range in that unit. *)
Theorem C8_setDistanceUnits_validates
    (self : nat) (v : pyval) (w : world) (u : Ultrasonic)
    (Hlive : sensor_at self w = Some u) :
  (py_eq_int v 0 = false → py_eq_int v 1 = false →
     setDistanceUnits self v w = Raised ValueError w) ∧
  (∀ z, v = PyNum (Int z) → z ≠ 0 → z ≠ 1 →
     setDistanceUnits self v w = Raised ValueError w ∧
     getDistanceUnits <$> sensor_at self w = Some (units u)) ∧
  (py_eq_int v 0 || py_eq_int v 1 = true →
     ∃ w', setDistanceUnits self v w = Returned w' ∧
           sensor_at self w' = Some (with_units v u) ∧
           getDistanceUnits (with_units v u) = v ∧
           pidGet (with_units v u)
           = (if py_eq_int v 0 then getRangeInches u else getRangeMM u) ∧
           ∀ j, j ≠ self → sensor_at j w' = sensor_at j w).
Proof.
  split; [|split].
  - exact (setDistanceUnits_invalid _ _ _ _ Hlive).
  - intros z -> Hz0 Hz1. rewrite Hlive. split; [|done].
    apply (setDistanceUnits_invalid _ _ _ _ Hlive); by apply Z.eqb_neq.
  - intros Hv. eexists. split; [by apply setDistanceUnits_valid|].
    split; [by eapply sensor_at_store_eq|]. split; [done|]. split.
    + rewrite pidGet_with_units.
      destruct (py_eq_int v 0); [done|]. simpl in Hv. by rewrite Hv.
    + intros j Hj. by apply (sensor_at_store_ne self j).
Qed.

Lemma C8_setDistanceUnits_validates_witness :
  setDistanceUnits 0 (PyNum (Int 3)) one_sensor = Raised ValueError one_sensor ∧
  ∃ w', setDistanceUnits 0 (PyNum (Int 1)) one_sensor = Returned w' ∧
        getDistanceUnits <$> sensor_at 0 w' = Some (PyNum (Int 1)).
Proof.
  split.
  - exact (proj1 (C8_setDistanceUnits_validates
                    0 (PyNum (Int 3)) one_sensor _ eq_refl) eq_refl eq_refl).
  - destruct (proj2 (proj2 (C8_setDistanceUnits_validates
                              0 (PyNum (Int 1)) one_sensor _ eq_refl)) eq_refl)
      as (w' & Hret & Hat & _).
    exists w'. split; [exact Hret|]. rewrite Hat. reflexivity.
Defined.

(** ** Construction *)

Section construction.
Implicit Types (w : world) (v : pyval).

Lemma init_self p e v w : (__init__ p e v w).1 = length (sensors w).
Proof. reflexivity. Qed.

Lemma init_sensors p e v w :
  sensors (__init__ p e v w).2
  = sensors w ++ [Some (mkUltrasonic p e v true (fresh_counter e))].
Proof.
  unfold __init__. simpl.
  destruct (_thread w) as [t|]; [destruct (is_alive t w)|]; reflexivity.
Qed.

Lemma init_sensor_at p e v w :
  sensor_at (__init__ p e v w).1 (__init__ p e v w).2
  = Some (mkUltrasonic p e v true (fresh_counter e)).
Proof.
  unfold sensor_at. rewrite init_sensors, init_self.
  by rewrite lookup_app_r, Nat.sub_diag.
Qed.

Lemma init_automaticEnabled p e v w :
  automaticEnabled (__init__ p e v w).2 = automaticEnabled w.
Proof.
  unfold __init__. simpl.
  destruct (_thread w) as [t|]; [destruct (is_alive t w)|]; reflexivity.
Qed.
End construction.

(** C10: the constructor stores whatever [units] it is given, without
    any check, so an instance can hold a value that is neither unit; for
    every instance whose [units] equals neither 0 nor 1, [pidGet] returns
    the float 0.0 and does not raise. *)
Theorem C10_unchecked_units_read_zero :
  (∀ p e v w,
     getDistanceUnits <$> sensor_at (__init__ p e v w).1 (__init__ p e v w).2
     = Some v) ∧
  (∀ u, py_eq_int (units u) Unit.kInches = false →
        py_eq_int (units u) Unit.kMillimeters = false →
        pidGet u = Float 0) ∧
  (∀ p e v w,
     py_in_ints v [Unit.kInches; Unit.kMillimeters] = false →
     pidGet <$> sensor_at (__init__ p e v w).1 (__init__ p e v w).2
     = Some (Float 0)).
Proof.
  split; [|split].
  - intros. by rewrite init_sensor_at.
  - intros u H0 H1. unfold pidGet. by rewrite H0, H1.
  - intros p e v w Hv. rewrite init_sensor_at. simpl. f_equal.
    rewrite py_in_units in Hv. apply orb_false_elim in Hv as [H0 H1].
    unfold pidGet. simpl. unfold Unit.kInches, Unit.kMillimeters.
    by rewrite H0, H1.
Qed.

Lemma C10_unchecked_units_read_zero_witness :
  pidGet (sample_sensor 2 (PyNum (Int 3))) = Float 0 ∧
  pidGet (sample_sensor 2 PyNone) = Float 0 ∧
  pidGet <$> sensor_at 0 (__init__ 1 2 (PyNum (Float 2.5)) initial_world).2
  = Some (Float 0).
Proof.
  split; [|split].
  - exact (proj1 (proj2 C10_unchecked_units_read_zero)
             (sample_sensor 2 (PyNum (Int 3))) eq_refl eq_refl).
  - exact (proj1 (proj2 C10_unchecked_units_read_zero)
             (sample_sensor 2 PyNone) eq_refl eq_refl).
  - exact (proj2 (proj2 C10_unchecked_units_read_zero)
             1 2 (PyNum (Float 2.5)) initial_world eq_refl).
Defined.

(** ** Enabling twice *)

(** C9: when automatic mode is already on, [setAutomaticMode(True)]
    returns at once and the class state is the one it found: no counter
    is reset, no thread is started, nothing is asked of the hardware. *)
Theorem C9_enable_when_enabled_is_noop
    (polls : list (list bg_event)) (w : world)
    (Hon : isAutomaticMode w = true) :
  setAutomaticMode true polls w = Returned w.
Proof. unfold setAutomaticMode. by rewrite Hon. Qed.

Lemma C9_enable_when_enabled_is_noop_witness :
  setAutomaticMode true [] scheduling = Returned scheduling ∧
  active_contexts scheduling = 1%nat.
Proof.
  split.
  - exact (C9_enable_when_enabled_is_noop [] scheduling eq_refl).
  - reflexivity.
Defined.

(** ** The scheduler's steps *)

Section scheduler.
Implicit Types (w : world) (u : Ultrasonic) (pc : checker_pc) (t : nat).

Lemma emit_nil w : emit [] w = w.
Proof. destruct w. unfold emit. simpl. by rewrite app_nil_r. Qed.

Lemma emit_emit a b w : emit b (emit a w) = emit (a ++ b) w.
Proof. unfold emit. simpl. by rewrite app_assoc. Qed.

(** The flag has been switched off: the turn ends the task at once. *)
Lemma step_for_disabled i rest count w :
  isAutomaticMode w = false →
  ultrasonicChecker_step (InFor (i :: rest) count) w = (w, None).
Proof. intros H. simpl. by rewrite H. Qed.

(** A live instance is counted, pulsed if enabled, and waited for. *)
Lemma step_for_live i rest count w u :
  isAutomaticMode w = true → sensor_at i w = Some u →
  ultrasonicChecker_step (InFor (i :: rest) count) w
  = (emit (visit_events u) w, Some (InFor rest (S count))).
Proof.
  intros Hon Hu. simpl. rewrite Hon, Hu. simpl. unfold visit_events.
  destruct (isEnabled u); simpl; [by rewrite emit_emit|done].
Qed.

(** A slot whose instance is gone is skipped without being counted. *)
Lemma step_for_dead i rest count w :
  isAutomaticMode w = true → sensor_at i w = None →
  ultrasonicChecker_step (InFor (i :: rest) count) w
  = (w, Some (InFor rest count)).
Proof. intros Hon Hu. simpl. by rewrite Hon, Hu. Qed.

(** Every step adds to the log nothing, or the events of one visit, and
    changes nothing else. *)
Lemma step_events pc w :
  ∃ evs, (ultrasonicChecker_step pc w).1 = emit evs w ∧
         (evs = [] ∨ ∃ u, evs = visit_events u).
Proof.
  destruct pc as [|[|i rest] count].
  - exists []. rewrite emit_nil. split; [|by left].
    simpl. by destruct (isAutomaticMode w).
  - exists []. rewrite emit_nil. split; [|by left]. by destruct count.
  - destruct (isAutomaticMode w) eqn:Hon.
    + destruct (sensor_at i w) as [u|] eqn:Hu.
      * exists (visit_events u). rewrite (step_for_live _ _ _ _ u); eauto.
      * exists []. rewrite step_for_dead, emit_nil; eauto.
    + exists []. rewrite step_for_disabled, emit_nil; eauto.
Qed.

Lemma thread_step_running t pc w :
  threads w !! t = Some (Running pc) →
  thread_step t w
  = set_thread t (after_step (ultrasonicChecker_step pc w).2)
               (ultrasonicChecker_step pc w).1.
Proof.
  intros H. unfold thread_step. rewrite H.
  by destruct (ultrasonicChecker_step pc w) as [w' next].
Qed.

Lemma thread_step_idle t w :
  is_alive t w = false → thread_step t w = w.
Proof.
  unfold is_alive, thread_step.
  destruct (threads w !! t) as [[|pc|]|]; simpl; by intros.
Qed.

Lemma run_thread_S t n w :
  run_thread t (S n) w = run_thread t n (thread_step t w).
Proof. reflexivity. Qed.

Lemma run_thread_add t n m w :
  run_thread t (n + m) w = run_thread t m (run_thread t n w).
Proof.
  unfold run_thread, bg_run. by rewrite replicate_add, foldl_app.
Qed.
End scheduler.

(** ** What background events leave alone *)

Section frame.
Implicit Types (w : world) (u : Ultrasonic) (t : nat) (e : bg_event).

Lemma thread_step_shape t w :
  thread_step t w = w ∨
  ∃ pc evs th, threads w !! t = Some (Running pc) ∧
               thread_step t w = set_thread t th (emit evs w) ∧
               (evs = [] ∨ ∃ u, evs = visit_events u).
Proof.
  destruct (threads w !! t) as [[|pc|]|] eqn:Ht;
    try (left; unfold thread_step; by rewrite Ht).
  right. destruct (step_events pc w) as (evs & Hw & Hevs).
  exists pc, evs, (after_step (ultrasonicChecker_step pc w).2).
  split; [done|]. split; [|done].
  by rewrite (thread_step_running _ pc), Hw.
Qed.

Lemma bg_run1_shape w e :
  automaticEnabled (bg_run1 w e) = automaticEnabled w ∧
  _thread (bg_run1 w e) = _thread w ∧
  length (threads (bg_run1 w e)) = length (threads w) ∧
  length (sensors (bg_run1 w e)) = length (sensors w).
Proof.
  destruct e as [t|i p]; simpl.
  - destruct (thread_step_shape t w) as [->|(pc & evs & th & _ & -> & _)];
      [done|]. simpl. by rewrite length_insert.
  - unfold echo_edge. destruct (sensor_at i w); [|done].
    simpl. by rewrite length_insert.
Qed.

Lemma bg_run_shape evs w :
  automaticEnabled (bg_run evs w) = automaticEnabled w ∧
  _thread (bg_run evs w) = _thread w ∧
  length (threads (bg_run evs w)) = length (threads w) ∧
  length (sensors (bg_run evs w)) = length (sensors w).
Proof.
  revert w. induction evs as [|e evs IH]; intros w; [done|].
  change (bg_run (e :: evs) w) with (bg_run evs (bg_run1 w e)).
  destruct (IH (bg_run1 w e)) as (-> & -> & -> & ->).
  apply bg_run1_shape.
Qed.

(** Background events touch the counter of an instance at most. *)
Lemma bg_run1_config w e i u :
  sensor_at i w = Some u →
  ∃ u', sensor_at i (bg_run1 w e) = Some u' ∧ same_config u u'.
Proof.
  intros Hu. destruct e as [t|j p]; simpl.
  - exists u. split; [|done].
    destruct (thread_step_shape t w) as [->|(pc & evs & th & _ & -> & _)]; done.
  - unfold echo_edge. destruct (sensor_at j w) as [uj|] eqn:Hj;
      [|by exists u].
    destruct (decide (j = i)) as [->|Hne].
    + eexists. split; [by eapply sensor_at_store_eq|].
      rewrite Hu in Hj. by simplify_eq.
    + exists u. by rewrite sensor_at_store_ne.
Qed.

Lemma same_config_refl u : same_config u u.
Proof. done. Qed.

Lemma same_config_trans u1 u2 u3 :
  same_config u1 u2 → same_config u2 u3 → same_config u1 u3.
Proof. unfold same_config. intros (?&?&?&?) (?&?&?&?). repeat split; congruence. Qed.

Lemma bg_run_config evs w i u :
  sensor_at i w = Some u →
  ∃ u', sensor_at i (bg_run evs w) = Some u' ∧ same_config u u'.
Proof.
  revert w u. induction evs as [|e evs IH]; intros w u Hu.
  - exists u. done.
  - change (bg_run (e :: evs) w) with (bg_run evs (bg_run1 w e)).
    destruct (bg_run1_config w e i u Hu) as (u1 & Hu1 & Hc1).
    destruct (IH _ _ Hu1) as (u2 & Hu2 & Hc2).
    exists u2. eauto using same_config_trans.
Qed.

(** A slot that is empty stays empty. *)
Lemma bg_run_dead evs w i :
  sensor_at i w = None → sensor_at i (bg_run evs w) = None.
Proof.
  revert w. induction evs as [|e evs IH]; intros w Hu; [done|].
  change (bg_run (e :: evs) w) with (bg_run evs (bg_run1 w e)).
  apply IH. destruct e as [t|j p]; simpl.
  - destruct (thread_step_shape t w) as [->|(pc & evs' & th & _ & -> & _)]; done.
  - unfold echo_edge. destruct (sensor_at j w) as [uj|] eqn:Hj; [|done].
    destruct (decide (j = i)) as [->|Hne]; [congruence|].
    by rewrite sensor_at_store_ne.
Qed.
End frame.

(** ** A pass that finds no instance *)

Section empty_pass.
Implicit Types (w : world) (t : nat).

Lemma set_thread_set_thread t th th' w :
  set_thread t th' (set_thread t th w) = set_thread t th' w.
Proof. unfold set_thread. simpl. by rewrite list_insert_insert_eq. Qed.

Lemma set_thread_lookup t th w :
  (t < length (threads w))%nat → threads (set_thread t th w) !! t = Some th.
Proof. intros H. simpl. by rewrite list_lookup_insert_eq. Qed.

(** With the flag on and every remaining slot empty, the thread walks to
    the end of the [for] and returns there, one step per slot and one for
    the test of [count]; nothing else changes. *)
Lemma run_dead_slots t rest w :
  threads w !! t = Some (Running (InFor rest 0)) →
  isAutomaticMode w = true →
  (∀ i, sensor_at i w = None) →
  run_thread t (length rest + 1) w = set_thread t Stopped w.
Proof.
  revert w. induction rest as [|i rest IH]; intros w Ht Hon Hdead.
  - simpl. rewrite run_thread_S. by rewrite (thread_step_running _ _ _ Ht).
  - simpl. rewrite run_thread_S.
    rewrite (thread_step_running _ _ _ Ht), step_for_dead by done. simpl.
    pose proof (lookup_lt_Some _ _ _ Ht) as Hlt.
    rewrite IH; [by rewrite set_thread_set_thread| |done|done].
    by apply set_thread_lookup.
Qed.

Lemma run_empty_pass t w :
  threads w !! t = Some (Running AtWhile) →
  isAutomaticMode w = true →
  (∀ i, sensor_at i w = None) →
  run_thread t (length (sensors w) + 2) w = set_thread t Stopped w.
Proof.
  intros Ht Hon Hdead.
  replace (length (sensors w) + 2)%nat
    with (S (length (seq 0 (length (sensors w))) + 1))
    by (rewrite length_seq; lia).
  rewrite run_thread_S, (thread_step_running _ _ _ Ht). simpl. rewrite Hon. simpl.
  pose proof (lookup_lt_Some _ _ _ Ht) as Hlt.
  rewrite run_dead_slots; [by rewrite set_thread_set_thread| |done|done].
  by apply set_thread_lookup.
Qed.
End empty_pass.

(** ** Enabling *)

Section enabling.
Implicit Types (w : world) (t : nat).

Lemma reset_all_sensor_at i w :
  sensor_at i (reset_all w) = counter_reset <$> sensor_at i w.
Proof.
  unfold sensor_at, reset_all. simpl. rewrite list_lookup_fmap.
  by destruct (sensors w !! i) as [[u|]|].
Qed.

Lemma setAutomaticMode_enable polls w :
  isAutomaticMode w = false →
  setAutomaticMode true polls w
  = thread_start (reset_all (with_automaticEnabled true w)).
Proof. intros H. unfold setAutomaticMode. by rewrite H. Qed.

Lemma thread_start_returned w w' :
  thread_start w = Returned w' →
  ∃ t, _thread w = Some t ∧ threads w !! t = Some Initial ∧
       w' = set_thread t (Running AtWhile) w.
Proof.
  unfold thread_start. destruct (_thread w) as [t|]; [|done].
  destruct (threads w !! t) as [[|pc|]|] eqn:Ht; try done.
  intros [= <-]. by exists t.
Qed.

(** A thread that was started before cannot be started again. *)
Lemma thread_start_again w t th :
  _thread w = Some t → threads w !! t = Some th → th ≠ Initial →
  thread_start w = Raised RuntimeError w.
Proof.
  intros Ht Hth Hne. unfold thread_start. rewrite Ht, Hth. by destruct th.
Qed.

Lemma is_alive_set_thread t th w :
  (t < length (threads w))%nat →
  is_alive t (set_thread t th w) = thread_alive th.
Proof. intros H. unfold is_alive. by rewrite set_thread_lookup. Qed.
End enabling.

(** C6: a pass that ends with [count] at zero makes the task return,
    whatever the flag says; started with the flag on and no live
    instance, the task returns within its first pass (the [while] test,
    one step per dead slot, the test of [count]) and asks nothing of the
    hardware; so enabling automatic mode when no instance is registered
    starts a thread that ends by itself in that many steps. *)
Theorem C6_zero_count_pass_terminates :
  (∀ w, ultrasonicChecker_step (InFor [] 0) w = (w, None)) ∧
  (∀ t w,
     threads w !! t = Some (Running AtWhile) →
     isAutomaticMode w = true →
     (∀ i, sensor_at i w = None) →
     run_thread t (length (sensors w) + 2) w = set_thread t Stopped w) ∧
  (∀ polls w w',
     (∀ i, sensor_at i w = None) →
     isAutomaticMode w = false →
     setAutomaticMode true polls w = Returned w' →
     ∃ t, _thread w' = Some t ∧ is_alive t w' = true ∧
          run_thread t (length (sensors w') + 2) w' = set_thread t Stopped w' ∧
          is_alive t (set_thread t Stopped w') = false ∧
          log (set_thread t Stopped w') = log w').
Proof.
  split; [done|]. split; [apply run_empty_pass|].
  intros polls w w' Hdead Hoff Hret.
  rewrite setAutomaticMode_enable in Hret by done.
  apply thread_start_returned in Hret as (t & Ht & Hth & ->).
  pose proof (lookup_lt_Some _ _ _ Hth) as Hlt.
  exists t. split; [done|].
  split; [by rewrite is_alive_set_thread|].
  split; [|split; [|done]].
  - apply run_empty_pass; [by apply set_thread_lookup|done|].
    intros i. simpl.
    change (sensor_at i (reset_all (with_automaticEnabled true w)) = None).
    rewrite reset_all_sensor_at.
    change (sensor_at i (with_automaticEnabled true w)) with (sensor_at i w).
    by rewrite Hdead.
  - rewrite is_alive_set_thread; [done|]. simpl. by rewrite length_insert.
Qed.

Lemma C6_zero_count_pass_terminates_witness :
  ∃ w', setAutomaticMode true [] no_sensor = Returned w' ∧
        is_alive 0 w' = true ∧
        run_thread 0 3 w' = set_thread 0 Stopped w' ∧
        log (set_thread 0 Stopped w') = log w'.
Proof.
  destruct (proj2 (proj2 C6_zero_count_pass_terminates) [] no_sensor
              (final (setAutomaticMode true [] no_sensor)))
    as (t & Ht & Halive & Hrun & _ & Hlog).
  - by intros [|[|i]].
  - reflexivity.
  - reflexivity.
  - injection Ht as <-. eexists. split; [reflexivity|]. by split.
Defined.

(** ** Pulses are spaced by the settle delay *)

Section spacing.
Implicit Types (w : world) (u : Ultrasonic) (us : list Ultrasonic).

Lemma visit_events_cases u :
  visit_events u
  = if isEnabled u
    then [EvPulse (pingChannel u) kPingTime; EvDelay settle_delay]
    else [EvDelay settle_delay].
Proof. unfold visit_events. by destruct (isEnabled u). Qed.

(** What the scheduler threads add to the log is a sequence of visits. *)
Lemma bg_run1_log w e :
  ∃ us, log (bg_run1 w e) = log w ++ concat (visit_events <$> us).
Proof.
  destruct e as [t|i p]; simpl.
  - destruct (thread_step_shape t w)
      as [->|(pc & evs & th & _ & -> & [->|[u ->]])].
    + exists []. simpl. by rewrite app_nil_r.
    + exists []. simpl. done.
    + exists [u]. simpl. by rewrite app_nil_r.
  - exists []. simpl. rewrite app_nil_r.
    unfold echo_edge. by destruct (sensor_at i w).
Qed.

Lemma bg_run_log evs w :
  ∃ us, log (bg_run evs w) = log w ++ concat (visit_events <$> us).
Proof.
  revert w. induction evs as [|e evs IH]; intros w.
  - exists []. simpl. by rewrite app_nil_r.
  - change (bg_run (e :: evs) w) with (bg_run evs (bg_run1 w e)).
    destruct (IH (bg_run1 w e)) as (us2 & ->).
    destruct (bg_run1_log w e) as (us1 & ->).
    exists (us1 ++ us2). by rewrite fmap_app, concat_app, app_assoc.
Qed.

(** Between two pulses of a sequence of visits lies a settle delay. *)
Lemma visits_spaced us l1 c1 d1 mid c2 d2 l2 :
  concat (visit_events <$> us)
  = l1 ++ EvPulse c1 d1 :: mid ++ EvPulse c2 d2 :: l2 →
  EvDelay settle_delay ∈ mid.
Proof.
  revert l1. induction us as [|u us IH]; intros l1 H.
  - by destruct l1.
  - simpl in H. rewrite visit_events_cases in H.
    destruct (isEnabled u); simpl in H.
    + destruct l1 as [|e1 l1]; simpl in H.
      * destruct mid as [|m mid]; simplify_eq/=. apply list_elem_of_here.
      * destruct l1 as [|e2 l1]; simplify_eq/=. by eapply IH.
    + destruct l1 as [|e1 l1]; simplify_eq/=. by eapply IH.
Qed.
End spacing.

(** C7: when the scheduler thread takes up a slot it first checks the
    flag and, finding it off, returns at once; with the flag on and the
    instance alive, [count] goes up by one whether or not the instance is
    enabled, the pulse of [kPingTime] is sent only when it is enabled,
    and the wait of 0.1 s follows in both cases; hence between any two
    pulses the scheduler sends there is a settle delay. *)
Theorem C7_scheduler_visit :
  (∀ t i rest count w,
     threads w !! t = Some (Running (InFor (i :: rest) count)) →
     isAutomaticMode w = false →
     thread_step t w = set_thread t Stopped w) ∧
  (∀ t i rest count w u,
     threads w !! t = Some (Running (InFor (i :: rest) count)) →
     isAutomaticMode w = true →
     sensor_at i w = Some u →
     thread_step t w
     = set_thread t (Running (InFor rest (S count))) (emit (visit_events u) w) ∧
     visit_events u
     = if isEnabled u
       then [EvPulse (pingChannel u) kPingTime; EvDelay settle_delay]
       else [EvDelay settle_delay]) ∧
  (∀ t n w l1 c1 d1 mid c2 d2 l2,
     log (run_thread t n w)
     = log w ++ l1 ++ EvPulse c1 d1 :: mid ++ EvPulse c2 d2 :: l2 →
     EvDelay settle_delay ∈ mid).
Proof.
  split; [|split].
  - intros t i rest count w Ht Hoff.
    by rewrite (thread_step_running _ _ _ Ht), step_for_disabled.
  - intros t i rest count w u Ht Hon Hu. split; [|apply visit_events_cases].
    by rewrite (thread_step_running _ _ _ Ht), (step_for_live _ _ _ _ u).
  - intros t n w l1 c1 d1 mid c2 d2 l2 Hlog.
    destruct (bg_run_log (replicate n (BgStep t)) w) as (us & Hus).
    unfold run_thread in Hlog. rewrite Hus in Hlog.
    apply app_inv_head in Hlog. by eapply visits_spaced.
Qed.

Lemma C7_scheduler_visit_witness :
  thread_step 0 (with_automaticEnabled false visiting)
  = set_thread 0 Stopped (with_automaticEnabled false visiting) ∧
  thread_step 0 visiting
  = set_thread 0 (Running (InFor [] 1))
      (emit [EvPulse 1 kPingTime; EvDelay settle_delay] visiting) ∧
  EvDelay settle_delay ∈ [EvDelay settle_delay].
Proof.
  split; [|split].
  - exact (proj1 C7_scheduler_visit 0%nat 0%nat [] 0%nat
             (with_automaticEnabled false visiting) eq_refl eq_refl).
  - exact (proj1 (proj1 (proj2 C7_scheduler_visit) 0%nat 0%nat [] 0%nat
                    visiting (mkUltrasonic 1 2 (PyNum (Int 0)) true (fresh_counter 2))
                    eq_refl eq_refl eq_refl)).
  - exact (proj2 (proj2 C7_scheduler_visit) 0%nat 5%nat scheduling
             [] 1 kPingTime [EvDelay settle_delay] 1 kPingTime
             [EvDelay settle_delay] eq_refl).
Defined.

(** ** Waiting for the scheduler to stop *)

Section waiting.
Implicit Types (w : world) (t : nat) (th : thread) (evs : list bg_event)
  (polls : list (list bg_event)).

Lemma steps_to_stop_le th : (steps_to_stop th ≤ 2)%nat.
Proof. destruct th as [|[|[|i rest] [|count]]|]; simpl; lia. Qed.

Lemma steps_to_stop_alive th : thread_alive th = true ↔ (0 < steps_to_stop th)%nat.
Proof.
  destruct th as [|[|[|i rest] [|count]]|]; simpl; split; (done || lia).
Qed.

(** With the flag off, every step brings the thread closer to its end. *)
Lemma thread_step_progress t w th :
  automaticEnabled w = false → threads w !! t = Some th →
  ∃ th', threads (thread_step t w) !! t = Some th' ∧
         steps_to_stop th' = pred (steps_to_stop th).
Proof.
  intros Hoff Ht. pose proof (lookup_lt_Some _ _ _ Ht) as Hlt.
  destruct th as [|pc|].
  - exists Initial. unfold thread_step. by rewrite Ht.
  - rewrite (thread_step_running _ _ _ Ht).
    destruct pc as [|[|i rest] count]; simpl; unfold isAutomaticMode;
      rewrite ?Hoff; simpl.
    + exists Stopped. by rewrite list_lookup_insert_eq.
    + destruct count; simpl; eexists; by rewrite list_lookup_insert_eq.
    + exists Stopped. by rewrite list_lookup_insert_eq.
  - exists Stopped. unfold thread_step. by rewrite Ht.
Qed.

Lemma thread_step_other t t' w :
  t' ≠ t → threads (thread_step t' w) !! t = threads w !! t.
Proof.
  intros Hne.
  destruct (thread_step_shape t' w) as [->|(pc & evs & th & _ & -> & _)];
    [done|].
  simpl. by rewrite list_lookup_insert_ne.
Qed.

Lemma echo_edge_threads i p w : threads (echo_edge i p w) = threads w.
Proof. unfold echo_edge. by destruct (sensor_at i w). Qed.

Lemma bg_run_progress evs t w th :
  automaticEnabled w = false → threads w !! t = Some th →
  ∃ th', threads (bg_run evs w) !! t = Some th' ∧
         steps_to_stop th' = (steps_to_stop th - steps_of t evs)%nat.
Proof.
  revert w th. induction evs as [|e evs IH]; intros w th Hoff Ht.
  - exists th. split; [done|]. simpl. lia.
  - change (bg_run (e :: evs) w) with (bg_run evs (bg_run1 w e)).
    assert (Hoff1 : automaticEnabled (bg_run1 w e) = false)
      by (by rewrite (proj1 (bg_run1_shape w e))).
    destruct e as [t'|i p]; simpl in *.
    + destruct (decide (t' = t)) as [->|Hne].
      * destruct (thread_step_progress t w th Hoff Ht) as (th1 & Ht1 & Hs1).
        destruct (IH _ _ Hoff1 Ht1) as (th2 & Ht2 & Hs2).
        exists th2. split; [done|]. lia.
      * rewrite <-(thread_step_other t t' w Hne) in Ht.
        destruct (IH _ _ Hoff1 Ht) as (th2 & Ht2 & Hs2).
        exists th2. split; [done|]. lia.
    + rewrite <-(echo_edge_threads i p w) in Ht.
      destruct (IH _ _ Hoff1 Ht) as (th2 & Ht2 & Hs2). by exists th2.
Qed.

Lemma steps_of_app t evs evs' :
  steps_of t (evs ++ evs') = (steps_of t evs + steps_of t evs')%nat.
Proof.
  induction evs as [|[t'|i p] evs IH]; simpl; [done| |done].
  rewrite IH. lia.
Qed.

(** The wait loop, one turn at a time. *)
Lemma wait_stopped_dead polls w t :
  _thread w = Some t → is_alive t w = false → wait_stopped polls w = Returned w.
Proof. intros Ht Ha. destruct polls; simpl; by rewrite Ht, Ha. Qed.

Lemma wait_stopped_alive evs polls w t :
  _thread w = Some t → is_alive t w = true →
  wait_stopped (evs :: polls) w
  = wait_stopped polls (bg_run evs (emit [EvDelay poll_delay] w)).
Proof. intros Ht Ha. simpl. by rewrite Ht, Ha. Qed.

(** The loop is left once the thread has been granted the steps it
    still needs. *)
Lemma wait_stopped_returns polls w t :
  _thread w = Some t → automaticEnabled w = false →
  (∀ th, threads w !! t = Some th →
         (steps_to_stop th ≤ steps_of t (concat polls))%nat) →
  ∃ w', wait_stopped polls w = Returned w'.
Proof.
  revert w. induction polls as [|evs polls IH]; intros w Ht Hoff Hfuel.
  - exists w. apply (wait_stopped_dead _ _ t); [done|].
    unfold is_alive. destruct (threads w !! t) as [th|] eqn:Hth; [|done].
    specialize (Hfuel th eq_refl). simpl in Hfuel.
    destruct (thread_alive th) eqn:Ha; [|done].
    apply steps_to_stop_alive in Ha. lia.
  - destruct (is_alive t w) eqn:Ha;
      [|exists w; by apply (wait_stopped_dead _ _ t)].
    rewrite (wait_stopped_alive _ _ _ t) by done.
    set (w0 := emit [EvDelay poll_delay] w).
    destruct (bg_run_shape evs w0) as (Hoff1 & Ht1 & _).
    apply IH; [by rewrite Ht1|by rewrite Hoff1|].
    intros th1 Hth1. unfold is_alive in Ha.
    destruct (threads w !! t) as [th|] eqn:Hth; [|done].
    destruct (bg_run_progress evs t w0 th Hoff Hth) as (th' & Hth' & Hs).
    rewrite Hth1 in Hth'. injection Hth' as <-.
    specialize (Hfuel th eq_refl). simpl in Hfuel.
    rewrite steps_of_app in Hfuel. lia.
Qed.

(** When the loop is left the thread is not alive; the loop itself
    changed neither the flag nor the thread the class refers to, and no
    instance appeared, vanished or was reconfigured. *)
Lemma wait_stopped_post polls w w' :
  wait_stopped polls w = Returned w' →
  automaticEnabled w' = automaticEnabled w ∧
  _thread w' = _thread w ∧
  (∀ t, _thread w = Some t → is_alive t w' = false) ∧
  (∀ i u, sensor_at i w = Some u →
          ∃ u', sensor_at i w' = Some u' ∧ same_config u u') ∧
  (∀ i, sensor_at i w = None → sensor_at i w' = None).
Proof.
  assert (Hbase : ∀ v t, _thread v = Some t → is_alive t v = false →
            automaticEnabled v = automaticEnabled v ∧ _thread v = _thread v ∧
            (∀ t, _thread v = Some t → is_alive t v = false) ∧
            (∀ i u, sensor_at i v = Some u →
                    ∃ u', sensor_at i v = Some u' ∧ same_config u u') ∧
            (∀ i, sensor_at i v = None → sensor_at i v = None)).
  { intros v t Ht Ha. split; [done|]. split; [done|]. split; [|split].
    - intros t' Ht'. congruence.
    - intros i u Hu. by exists u.
    - done. }
  revert w. induction polls as [|evs polls IH]; intros w Hret.
  - simpl in Hret. destruct (_thread w) as [t|] eqn:Ht; [|done].
    destruct (is_alive t w) eqn:Ha; [done|].
    injection Hret as <-. rewrite <-Ht. by apply (Hbase w t).
  - destruct (_thread w) as [t|] eqn:Ht; [|by simpl in Hret; rewrite Ht in Hret].
    destruct (is_alive t w) eqn:Ha.
    + rewrite (wait_stopped_alive _ _ _ t) in Hret by done.
      apply IH in Hret as (Hoff' & Ht' & Hdead & Hcfg & Hnone).
      set (w0 := emit [EvDelay poll_delay] w) in *.
      destruct (bg_run_shape evs w0) as (Hoff1 & Ht1 & _).
      split; [by rewrite Hoff', Hoff1|]. split; [by rewrite Ht', Ht1|].
      split; [|split].
      * intros t' Hteq. apply Hdead. rewrite Ht1. simpl. by rewrite Ht.
      * intros i u Hu.
        destruct (bg_run_config evs w0 i u Hu) as (u1 & Hu1 & Hc1).
        destruct (Hcfg i u1 Hu1) as (u2 & Hu2 & Hc2).
        exists u2. eauto using same_config_trans.
      * intros i Hi. apply Hnone. by apply bg_run_dead.
    + rewrite (wait_stopped_dead _ _ t) in Hret by done.
      injection Hret as <-. rewrite <-Ht. by apply (Hbase w t).
Qed.
End waiting.

(** ** Disabling *)

Section disabling.
Implicit Types (w : world) (t : nat) (polls : list (list bg_event)).

Lemma setAutomaticMode_disable polls w :
  setAutomaticMode false polls w
  = match wait_stopped polls (with_automaticEnabled false w) with
    | Returned w1 => Returned (reset_all w1)
    | o => o
    end.
Proof. reflexivity. Qed.

Lemma disable_returned polls w w' :
  setAutomaticMode false polls w = Returned w' →
  ∃ w1, wait_stopped polls (with_automaticEnabled false w) = Returned w1 ∧
        w' = reset_all w1.
Proof.
  rewrite setAutomaticMode_disable.
  destruct (wait_stopped polls (with_automaticEnabled false w)) as [w1|e w1|w1];
    [|done|done].
  intros [= <-]. by exists w1.
Qed.

(** The slots listed for the reset are exactly the live ones. *)
Lemma elem_of_live_from k l i :
  i ∈ live_from k l ↔ ∃ j, i = (k + j)%nat ∧ is_Some (mjoin (l !! j)).
Proof.
  revert k. induction l as [|[u|] l IH]; intros k; simpl.
  - split; [by intros ?%elem_of_nil|]. by intros (j & _ & [? ?]).
  - rewrite elem_of_cons, IH. split.
    + intros [->|(j & -> & Hj)].
      * exists 0%nat. split; [lia|]. by eexists.
      * exists (S j). split; [lia|done].
    + intros ([|j] & -> & Hj); [left; lia|].
      right. exists j. split; [lia|done].
  - rewrite IH. split.
    + intros (j & -> & Hj). exists (S j). split; [lia|done].
    + intros ([|j] & -> & Hj); [by destruct Hj|].
      exists j. split; [lia|done].
Qed.

Lemma elem_of_live_ids w i : i ∈ live_ids w ↔ is_Some (sensor_at i w).
Proof.
  unfold live_ids. rewrite elem_of_live_from. split.
  - by intros (j & -> & Hj).
  - intros Hi. by exists i.
Qed.

Lemma reset_all_resets w i u :
  sensor_at i (reset_all w) = Some u →
  Counter.get (counter u) = 0 ∧ isRangeValid u = false.
Proof.
  rewrite reset_all_sensor_at. destruct (sensor_at i w) as [u0|]; [|done].
  by intros [= <-].
Qed.

Lemma is_alive_reset_all t w : is_alive t (reset_all w) = is_alive t w.
Proof. reflexivity. Qed.
End disabling.

(** C2: [setAutomaticMode(False)], whatever the flag was before, first
    clears the flag and then waits for the scheduler thread: as long as
    the thread is alive it sleeps 0.15 s (which is longer than the 0.1 s
    settle delay) and looks again.  It returns only in a state where the
    thread is not alive and, just before returning, resets the counter
    of every live instance, so no instance has a valid range.  When the
    thread is not alive at the call it returns without sleeping, and it
    always returns once the thread has been granted two steps. *)
Theorem C2_disable_waits_then_resets
    (polls : list (list bg_event)) (w : world) (t : nat)
    (Ht : _thread w = Some t) :
  (∀ w', setAutomaticMode false polls w = Returned w' →
     ∃ w1, wait_stopped polls (with_automaticEnabled false w) = Returned w1 ∧
           is_alive t w1 = false ∧
           w' = reset_all w1 ∧
           log w' = log w1 ++ (EvCounterReset <$> live_ids w1) ∧
           (∀ i, i ∈ live_ids w1 ↔ is_Some (sensor_at i w')) ∧
           isAutomaticMode w' = false ∧
           is_alive t w' = false ∧
           ∀ i u, sensor_at i w' = Some u →
                  Counter.get (counter u) = 0 ∧ isRangeValid u = false) ∧
  (∀ evs polls' w0,
     _thread w0 = Some t → is_alive t w0 = true →
     wait_stopped (evs :: polls') w0
     = wait_stopped polls' (bg_run evs (emit [EvDelay poll_delay] w0))) ∧
  (settle_delay <? poll_delay)%float = true ∧
  (is_alive t w = false →
     setAutomaticMode false polls w
     = Returned (reset_all (with_automaticEnabled false w))) ∧
  ((2 ≤ steps_of t (concat polls))%nat →
     ∃ w', setAutomaticMode false polls w = Returned w').
Proof.
  split; [|split; [|split; [|split]]].
  - intros w' (w1 & Hwait & ->)%disable_returned.
    destruct (wait_stopped_post _ _ _ Hwait) as (Hoff & Hth & Hdead & _).
    exists w1. split; [done|]. split; [by apply Hdead|]. split; [done|].
    split; [done|]. split; [|split; [done|split]].
    + intros i. rewrite elem_of_live_ids, reset_all_sensor_at.
      by rewrite fmap_is_Some.
    + rewrite is_alive_reset_all. by apply Hdead.
    + apply reset_all_resets.
  - intros evs polls' w0. apply wait_stopped_alive.
  - reflexivity.
  - intros Ha. rewrite setAutomaticMode_disable.
    by rewrite (wait_stopped_dead _ _ t).
  - intros Hsteps.
    destruct (wait_stopped_returns polls (with_automaticEnabled false w) t)
      as (w1 & Hw1); [done|done| |].
    + intros th _. pose proof (steps_to_stop_le th). lia.
    + exists (reset_all w1). by rewrite setAutomaticMode_disable, Hw1.
Qed.

Lemma C2_disable_waits_then_resets_witness :
  ∃ w', setAutomaticMode false [[BgStep 0]; [BgStep 0]] visiting = Returned w' ∧
        isAutomaticMode w' = false ∧ is_alive 0 w' = false ∧
        ∀ i u, sensor_at i w' = Some u → isRangeValid u = false.
Proof.
  pose proof (C2_disable_waits_then_resets
                [[BgStep 0]; [BgStep 0]] visiting 0 eq_refl) as (Hpost & _ & _ & _ & Hret).
  destruct Hret as (w' & Hw'); [simpl; lia|].
  destruct (Hpost w' Hw') as (w1 & _ & _ & _ & _ & _ & Hoff & Hdead & Hreset).
  exists w'. split; [done|]. split; [done|]. split; [done|].
  intros i u Hu. by destruct (Hreset i u Hu).
Defined.

(** ** Manual ping *)

Section pinging.
Implicit Types (w : world) (t self : nat) (u : Ultrasonic)
  (polls : list (list bg_event)).

Lemma same_config_counter_reset u : same_config u (counter_reset u).
Proof. done. Qed.

Lemma disable_config polls w w1 i u :
  setAutomaticMode false polls w = Returned w1 →
  sensor_at i w = Some u →
  ∃ u1, sensor_at i w1 = Some u1 ∧ same_config u u1.
Proof.
  intros (w0 & Hwait & ->)%disable_returned Hu.
  destruct (wait_stopped_post _ _ _ Hwait) as (_ & _ & _ & Hcfg & _).
  destruct (Hcfg i u Hu) as (u0 & Hu0 & Hc0).
  exists (counter_reset u0). rewrite reset_all_sensor_at, Hu0. split; [done|].
  eauto using same_config_trans, same_config_counter_reset.
Qed.

Lemma ping_after_disable self polls w w1 u1 :
  setAutomaticMode false polls w = Returned w1 →
  sensor_at self w1 = Some u1 →
  ping self polls w
  = Returned
      (emit [EvCounterReset self; EvPulse (pingChannel u1) kPingTime]
         (with_sensors (<[self := Some (counter_reset u1)]> (sensors w1)) w1)).
Proof.
  intros Hdis Hu1. unfold ping. rewrite Hdis, Hu1. by rewrite emit_emit.
Qed.

Lemma ping_not_returned self polls w :
  (∀ w1, setAutomaticMode false polls w ≠ Returned w1) →
  ping self polls w = setAutomaticMode false polls w.
Proof.
  intros H. unfold ping.
  destruct (setAutomaticMode false polls w) as [w1|e w1|w1]; [|done|done].
  by destruct (H w1).
Qed.
End pinging.

(** C5: [ping()] on a live instance first runs [setAutomaticMode(False)]
    to its end, so that the flag is off and the scheduler thread is not
    alive before anything else happens; the only effects that follow are
    the reset of this instance's counter and then one pulse of
    [kPingTime] on its ping channel.  Unless the mode switch returns
    there is no pulse; and it returns once the scheduler thread has been
    granted two steps. *)
Theorem C5_ping_disables_resets_pulses
    (self : nat) (polls : list (list bg_event)) (w : world)
    (u : Ultrasonic) (t : nat)
    (Hlive : sensor_at self w = Some u) (Ht : _thread w = Some t) :
  (∀ w', ping self polls w = Returned w' →
     ∃ w1 u1,
       setAutomaticMode false polls w = Returned w1 ∧
       isAutomaticMode w1 = false ∧ is_alive t w1 = false ∧
       sensor_at self w1 = Some u1 ∧
       log w' = log w1 ++ [EvCounterReset self; EvPulse (pingChannel u) kPingTime] ∧
       isAutomaticMode w' = false ∧ is_alive t w' = false ∧
       sensor_at self w' = Some (counter_reset u1)) ∧
  ((∀ w1, setAutomaticMode false polls w ≠ Returned w1) →
     ping self polls w = setAutomaticMode false polls w) ∧
  ((2 ≤ steps_of t (concat polls))%nat →
     ∃ w', ping self polls w = Returned w').
Proof.
  assert (Hdis : ∀ w1, setAutomaticMode false polls w = Returned w1 →
            isAutomaticMode w1 = false ∧ is_alive t w1 = false ∧
            ∃ u1, sensor_at self w1 = Some u1 ∧ same_config u u1).
  { intros w1 Hw1. split; [|split].
    - apply disable_returned in Hw1 as (w0 & Hwait & ->).
      destruct (wait_stopped_post _ _ _ Hwait) as (Hoff & _). exact Hoff.
    - apply disable_returned in Hw1 as (w0 & Hwait & ->).
      destruct (wait_stopped_post _ _ _ Hwait) as (_ & _ & Hdead & _).
      rewrite is_alive_reset_all. by apply Hdead.
    - by eapply disable_config. }
  split; [|split].
  - intros w' Hping.
    destruct (setAutomaticMode false polls w) as [w1|e w1|w1] eqn:Hw1;
      try (unfold ping in Hping; by rewrite Hw1 in Hping).
    destruct (Hdis w1 eq_refl) as (Hoff & Hdead & u1 & Hu1 & Hcfg).
    rewrite (ping_after_disable _ _ _ w1 u1) in Hping by done.
    injection Hping as <-. exists w1, u1.
    destruct Hcfg as (Hpc & _).
    split; [done|]. split; [done|]. split; [done|]. split; [done|].
    split; [by rewrite <-Hpc|]. split; [done|]. split.
    + unfold is_alive in *. done.
    + by eapply sensor_at_store_eq.
  - apply ping_not_returned.
  - intros Hsteps.
    destruct (wait_stopped_returns polls (with_automaticEnabled false w) t)
      as (w0 & Hw0); [done|done| |].
    { intros th _. pose proof (steps_to_stop_le th). lia. }
    assert (Hw1 : setAutomaticMode false polls w = Returned (reset_all w0))
      by (by rewrite setAutomaticMode_disable, Hw0).
    destruct (Hdis _ Hw1) as (_ & _ & u1 & Hu1 & _).
    eexists. by apply (ping_after_disable _ _ _ (reset_all w0) u1).
Qed.

Lemma C5_ping_disables_resets_pulses_witness :
  ∃ w', ping 0 [[BgStep 0]; [BgStep 0]] visiting = Returned w' ∧
        isAutomaticMode w' = false ∧ is_alive 0 w' = false.
Proof.
  pose proof (C5_ping_disables_resets_pulses 0 [[BgStep 0]; [BgStep 0]]
                visiting _ 0 eq_refl eq_refl) as (Hpost & _ & Hret).
  destruct Hret as (w' & Hw'); [simpl; lia|].
  destruct (Hpost w' Hw') as (w1 & u1 & _ & _ & _ & _ & _ & Hoff & Hdead & _).
  by exists w'.
Defined.

(** ** Validity after a reset *)

Section validity.
Implicit Types (w : world) (u : Ultrasonic) (polls : list (list bg_event)).

Lemma enable_resets polls w i u :
  isAutomaticMode w = false →
  sensor_at i (final (setAutomaticMode true polls w)) = Some u →
  isRangeValid u = false.
Proof.
  intros Hoff. rewrite setAutomaticMode_enable by done.
  set (w1 := reset_all (with_automaticEnabled true w)).
  assert (Hs : sensors (final (thread_start w1)) = sensors w1).
  { unfold thread_start. destruct (_thread w1) as [t|]; [|done].
    by destruct (threads w1 !! t) as [[|pc|]|]. }
  unfold sensor_at. rewrite Hs. intros Hu.
  by apply (reset_all_resets (with_automaticEnabled true w) i u).
Qed.

Lemma disable_resets polls w w' i u :
  setAutomaticMode false polls w = Returned w' →
  sensor_at i w' = Some u → isRangeValid u = false.
Proof.
  intros (w1 & _ & ->)%disable_returned Hu.
  by apply (reset_all_resets w1 i u).
Qed.

Lemma ping_resets self polls w w' i u :
  ping self polls w = Returned w' →
  sensor_at i w' = Some u → isRangeValid u = false.
Proof.
  unfold ping.
  destruct (setAutomaticMode false polls w) as [w1|e w1|w1] eqn:Hw1;
    [|done|done].
  destruct (sensor_at self w1) as [u1|] eqn:Hu1; [|done].
  intros [= <-] Hu.
  change (sensor_at i (with_sensors (<[self:=Some (counter_reset u1)]> (sensors w1)) w1)
          = Some u) in Hu.
  destruct (decide (self = i)) as [->|Hne].
  - rewrite (sensor_at_store_eq _ _ u1) in Hu by done. by injection Hu as <-.
  - rewrite sensor_at_store_ne in Hu by done. by eapply disable_resets.
Qed.
End validity.

(** C3: [isRangeValid()] is true exactly when the counter reads more
    than 1; a counter that was reset and has since seen the edges [ps]
    reads their number, so the range is valid from the second edge on and
    not before; it is false right after a reset, whether the reset is the
    instance's own or the one [setAutomaticMode] performs on every live
    instance when the mode is switched on or off, or the one of [ping]. *)
Theorem C3_range_valid_iff_two_edges :
  (∀ u, isRangeValid u = true ↔ 1 < Counter.get (counter u)) ∧
  (∀ u ps,
     isRangeValid (with_counter (edges_after_reset ps (counter u)) u) = true
     ↔ (2 ≤ length ps)%nat) ∧
  (∀ u, isRangeValid (counter_reset u) = false) ∧
  (∀ polls w i u,
     isAutomaticMode w = false →
     sensor_at i (final (setAutomaticMode true polls w)) = Some u →
     isRangeValid u = false) ∧
  (∀ polls w w' i u,
     setAutomaticMode false polls w = Returned w' →
     sensor_at i w' = Some u → isRangeValid u = false) ∧
  (∀ self polls w w' i u,
     ping self polls w = Returned w' →
     sensor_at i w' = Some u → isRangeValid u = false).
Proof.
  split; [apply isRangeValid_spec|]. split.
  { intros u ps. rewrite isRangeValid_spec.
    change (1 < Counter.get (edges_after_reset ps (counter u))
            ↔ (2 ≤ length ps)%nat).
    rewrite get_edges_after_reset. lia. }
  split; [apply isRangeValid_counter_reset|].
  split; [apply enable_resets|].
  split; [apply disable_resets|apply ping_resets].
Qed.

Lemma C3_range_valid_iff_two_edges_witness :
  isRangeValid (with_counter (edges_after_reset [0.002%float; 0.002%float]
                                (sample_counter 5))
                             (sample_sensor 5 PyNone)) = true ∧
  (∀ i u, sensor_at i scheduling = Some u → isRangeValid u = false) ∧
  (∀ i u, sensor_at i idle = Some u → isRangeValid u = false).
Proof.
  split; [|split].
  - apply (proj1 (proj2 C3_range_valid_iff_two_edges) (sample_sensor 5 PyNone)).
    simpl. lia.
  - intros i u.
    exact (proj1 (proj2 (proj2 (proj2 C3_range_valid_iff_two_edges)))
             [] one_sensor i u eq_refl).
  - intros i u.
    exact (proj1 (proj2 (proj2 (proj2 (proj2 C3_range_valid_iff_two_edges))))
             [[BgStep 0]] scheduling idle i u eq_refl).
Defined.

(** ** Execution contexts *)

Section contexts.
Implicit Types (w : world) (t : nat) (th : thread) (l : list thread)
  (polls : list (list bg_event)).

Lemma filter_alive_nil l :
  (∀ i th, l !! i = Some th → thread_alive th = false) →
  filter (fun th => thread_alive th = true) l = [].
Proof.
  induction l as [|th l IH]; intros H; [done|].
  rewrite filter_cons_False.
  - apply IH. intros i th' Hi. by apply (H (S i)).
  - rewrite (H 0%nat th); done.
Qed.

Lemma filter_alive_le_1 l :
  (∀ i j th th', l !! i = Some th → l !! j = Some th' →
                 thread_alive th = true → thread_alive th' = true → i = j) →
  (length (filter (fun th => thread_alive th = true) l) ≤ 1)%nat.
Proof.
  induction l as [|th l IH]; intros H; [simpl; lia|].
  destruct (thread_alive th) eqn:Ha.
  - rewrite filter_cons_True by done. rewrite filter_alive_nil; [simpl; lia|].
    intros i th' Hi. destruct (thread_alive th') eqn:Ha'; [|done].
    by specialize (H 0%nat (S i) th th' eq_refl Hi Ha Ha').
  - rewrite filter_cons_False by (by rewrite Ha). apply IH.
    intros i j th1 th2 Hi Hj H1 H2.
    by specialize (H (S i) (S j) th1 th2 Hi Hj H1 H2) as [= ->].
Qed.

Lemma only_current_alive_le_1 w :
  only_current_alive w → (active_contexts w ≤ 1)%nat.
Proof.
  intros Hinv. apply filter_alive_le_1. intros i j th th' Hi Hj Ha Ha'.
  assert (Hti : _thread w = Some i)
    by (apply Hinv; unfold is_alive; by rewrite Hi).
  assert (Htj : _thread w = Some j)
    by (apply Hinv; unfold is_alive; by rewrite Hj).
  congruence.
Qed.

Lemma no_new_context_refl w : no_new_context w w.
Proof. done. Qed.

Lemma no_new_context_trans w1 w2 w3 :
  no_new_context w1 w2 → no_new_context w2 w3 → no_new_context w1 w3.
Proof. intros [H1 H2] [H3 H4]. split; [congruence|auto]. Qed.

Lemma no_new_context_inv w w' :
  no_new_context w w' → only_current_alive w → only_current_alive w'.
Proof. intros [Ht Ha] Hinv t Hal. rewrite Ht. auto. Qed.

(** A change that leaves the thread objects alone. *)
Lemma same_threads_no_new w w' :
  threads w' = threads w → _thread w' = _thread w → no_new_context w w'.
Proof. intros Hth Ht. split; [done|]. unfold is_alive. by rewrite Hth. Qed.

Lemma thread_step_no_new t w : no_new_context w (thread_step t w).
Proof.
  destruct (thread_step_shape t w) as [->|(pc & evs & th & Ht & -> & _)];
    [done|].
  split; [done|]. intros t' Ha. unfold is_alive in *. simpl in Ha.
  destruct (decide (t = t')) as [<-|Hne].
  - by rewrite Ht.
  - by rewrite list_lookup_insert_ne in Ha.
Qed.

Lemma bg_run1_no_new w e : no_new_context w (bg_run1 w e).
Proof.
  destruct e as [t|i p]; simpl; [apply thread_step_no_new|].
  apply same_threads_no_new; [apply echo_edge_threads|].
  unfold echo_edge. by destruct (sensor_at i w).
Qed.

Lemma bg_run_no_new evs w : no_new_context w (bg_run evs w).
Proof.
  revert w. induction evs as [|e evs IH]; intros w; [done|].
  change (bg_run (e :: evs) w) with (bg_run evs (bg_run1 w e)).
  eauto using no_new_context_trans, bg_run1_no_new.
Qed.

Lemma wait_stopped_no_new polls w :
  no_new_context w (final (wait_stopped polls w)).
Proof.
  revert w. induction polls as [|evs polls IH]; intros w; simpl;
    destruct (_thread w) as [t|]; try done; destruct (is_alive t w); try done.
  eapply no_new_context_trans; [|apply IH].
  eapply no_new_context_trans; [|apply bg_run_no_new]. done.
Qed.

Lemma thread_start_inv w :
  only_current_alive w → only_current_alive (final (thread_start w)).
Proof.
  intros Hinv. unfold thread_start. destruct (_thread w) as [t|] eqn:Ht; [|done].
  destruct (threads w !! t) as [[|pc|]|] eqn:Hth; try done.
  intros t' Ha. simpl. rewrite Ht. unfold is_alive in Ha. simpl in Ha.
  destruct (decide (t = t')) as [<-|Hne]; [done|].
  rewrite list_lookup_insert_ne in Ha by done.
  rewrite <-Ht. by apply Hinv.
Qed.

Lemma setAutomaticMode_inv b polls w :
  only_current_alive w → only_current_alive (final (setAutomaticMode b polls w)).
Proof.
  intros Hinv. unfold setAutomaticMode.
  destruct (b && isAutomaticMode w) eqn:Hb; [done|]. destruct b.
  - by apply thread_start_inv.
  - pose proof (wait_stopped_no_new polls (with_automaticEnabled false w)) as Hn.
    destruct (wait_stopped polls (with_automaticEnabled false w)) as [w1|e w1|w1];
      by apply (no_new_context_inv (with_automaticEnabled false w)).
Qed.

Lemma init_inv p e v w :
  only_current_alive w → only_current_alive (__init__ p e v w).2.
Proof.
  intros Hinv.
  assert (Hnew : (∀ t, is_alive t w = false) →
            ∀ t, is_alive t (with_threads (threads w ++ [Initial]) w) = false).
  { intros Hnone t. specialize (Hnone t). unfold is_alive in *. simpl.
    destruct (decide (t < length (threads w))%nat) as [Hlt|Hge].
    - by rewrite lookup_app_l.
    - rewrite lookup_app_r by lia.
      by destruct (t - length (threads w))%nat as [|[|k]]. }
  unfold __init__. destruct (_thread w) as [t|] eqn:Ht.
  - destruct (is_alive t w) eqn:Ha.
    + intros t' Ha'. simpl. rewrite Ht. rewrite <-Ht. by apply Hinv.
    + intros t' Ha'. exfalso.
      assert (Hnone : ∀ t0, is_alive t0 w = false).
      { intros t0. destruct (is_alive t0 w) eqn:Ha0; [|done].
        pose proof (Hinv _ Ha0) as Heq. rewrite Ht in Heq.
        injection Heq as ->. congruence. }
      specialize (Hnew Hnone t'). unfold is_alive in *. simpl in *. congruence.
  - intros t' Ha'. exfalso.
    assert (Hnone : ∀ t0, is_alive t0 w = false).
    { intros t0. destruct (is_alive t0 w) eqn:Ha0; [|done].
      apply Hinv in Ha0. congruence. }
    specialize (Hnew Hnone t'). unfold is_alive in *. simpl in *. congruence.
Qed.

Lemma ping_inv self polls w :
  only_current_alive w → only_current_alive (final (ping self polls w)).
Proof.
  intros Hinv. pose proof (setAutomaticMode_inv false polls w Hinv) as H.
  unfold ping. destruct (setAutomaticMode false polls w) as [w1|e w1|w1];
    [|done|done].
  by destruct (sensor_at self w1).
Qed.

Lemma perform_inv c w :
  only_current_alive w → only_current_alive (final (perform c w)).
Proof.
  intros Hinv. destruct c as [p e v|b polls|self polls|self v|self b|i|e]; simpl.
  - by apply init_inv.
  - by apply setAutomaticMode_inv.
  - by apply ping_inv.
  - unfold setDistanceUnits. destruct (sensor_at self w); [|done].
    by destruct (negb _).
  - unfold setEnabled. by destruct (sensor_at self w).
  - done.
  - eapply no_new_context_inv; [apply bg_run1_no_new|done].
Qed.

(** X1: in every state the public interface can lead to, at most one
    execution context runs the scheduler. *)
Lemma at_most_one_context cs :
  (active_contexts (perform_all cs initial_world) ≤ 1)%nat.
Proof.
  apply only_current_alive_le_1.
  assert (H : ∀ w, only_current_alive w → only_current_alive (perform_all cs w)).
  { induction cs as [|c cs IH]; intros w Hinv; [done|].
    apply IH. by apply perform_inv. }
  apply H. intros t Ha. by destruct t.
Qed.
End contexts.

(** ** Switching on again *)

Section restart.
Implicit Types (w : world) (t : nat) (th : thread)
  (polls : list (list bg_event)).

(** A thread that has been started never is [Initial] again. *)
Lemma thread_step_started t' t w th :
  threads w !! t = Some th → th ≠ Initial →
  ∃ th', threads (thread_step t' w) !! t = Some th' ∧ th' ≠ Initial.
Proof.
  intros Ht Hne. destruct (decide (t' = t)) as [->|Hneq].
  - destruct th as [|pc|]; [done| |].
    + rewrite (thread_step_running _ _ _ Ht).
      pose proof (lookup_lt_Some _ _ _ Ht) as Hlt.
      destruct (step_events pc w) as (evs & Hw & _).
      eexists. split.
      * apply set_thread_lookup. by rewrite Hw.
      * by destruct (ultrasonicChecker_step pc w).2.
    + exists Stopped. unfold thread_step. by rewrite Ht.
  - exists th. by rewrite thread_step_other.
Qed.

Lemma bg_run_started evs t w th :
  threads w !! t = Some th → th ≠ Initial →
  ∃ th', threads (bg_run evs w) !! t = Some th' ∧ th' ≠ Initial.
Proof.
  revert w th. induction evs as [|e evs IH]; intros w th Ht Hne; [by exists th|].
  change (bg_run (e :: evs) w) with (bg_run evs (bg_run1 w e)).
  destruct e as [t'|i p]; simpl.
  - destruct (thread_step_started t' t w th Ht Hne) as (th1 & Ht1 & Hne1).
    by apply (IH _ th1).
  - apply (IH _ th); [|done]. by rewrite echo_edge_threads.
Qed.

Lemma wait_stopped_started polls t w w' th :
  threads w !! t = Some th → th ≠ Initial →
  wait_stopped polls w = Returned w' →
  ∃ th', threads w' !! t = Some th' ∧ th' ≠ Initial.
Proof.
  revert w th. induction polls as [|evs polls IH]; intros w th Ht Hne; simpl;
    destruct (_thread w) as [t0|]; try done;
    destruct (is_alive t0 w); try done;
    try (intros [= <-]; by exists th).
  destruct (bg_run_started evs t (emit [EvDelay poll_delay] w) th Ht Hne)
    as (th1 & Ht1 & Hne1).
  by apply (IH _ th1).
Qed.

(** X2: once the scheduler has run and has been stopped by
    [setAutomaticMode(False)], switching it on again raises
    [RuntimeError] from [Thread.start()]: the flag is left on, the
    counters have been reset, and no thread runs. *)
Lemma reenable_raises polls polls' w w1 t :
  only_current_alive w →
  _thread w = Some t → is_alive t w = true →
  setAutomaticMode false polls w = Returned w1 →
  setAutomaticMode true polls' w1
  = Raised RuntimeError (reset_all (with_automaticEnabled true w1)) ∧
  active_contexts (reset_all (with_automaticEnabled true w1)) = 0%nat.
Proof.
  intros Hinv Ht Ha Hdis.
  pose proof (setAutomaticMode_inv false polls w Hinv) as Hinv1.
  rewrite Hdis in Hinv1. simpl in Hinv1.
  apply disable_returned in Hdis as (w0 & Hwait & ->).
  destruct (wait_stopped_post _ _ _ Hwait) as (Hoff & Hth & Hdead & _).
  unfold is_alive in Ha. destruct (threads w !! t) as [th|] eqn:Hlook; [|done].
  destruct (wait_stopped_started polls t (with_automaticEnabled false w) w0 th)
    as (th' & Hth' & Hne'); [done|by destruct th|done|].
  split.
  - rewrite setAutomaticMode_enable by done.
    apply (thread_start_again _ t th'); [by rewrite <-Ht|done|done].
  - unfold active_contexts. rewrite filter_alive_nil; [done|].
    intros i thi Hi. destruct (thread_alive thi) eqn:Hai; [|done].
    simpl in Hi.
    assert (Hal : is_alive i (reset_all w0) = true)
      by (unfold is_alive; simpl; by rewrite Hi).
    pose proof (Hinv1 i Hal) as Hcur. simpl in Hcur.
    rewrite Hth in Hcur. simpl in Hcur. rewrite Ht in Hcur.
    assert (i = t) as -> by congruence.
    specialize (Hdead t Ht). unfold is_alive in Hdead, Hal. simpl in Hal.
    congruence.
Qed.

(** The constructor is the only place that makes a new thread object:
    after it has run, the scheduler can be started again. *)
Lemma reenable_after_new_instance :
  ∃ w, setAutomaticMode true [] (__init__ 3 4 (PyNum (Int Unit.kInches)) idle).2
       = Returned w ∧
       active_contexts w = 1%nat ∧ _thread w = Some 1%nat.
Proof. eexists. split; [reflexivity|]. by split. Qed.
End restart.

(** C1: on the sequence construct, enable, disable, enable, the code
    does not produce one active scheduler.  The first enable starts the
    thread made by the constructor; the disable returns once that thread
    has ended; the second enable calls [start()] on the same, finished,
    thread object and raises [RuntimeError], leaving the flag on and no
    thread running. *)
Theorem C1_reenable_after_disable_raises :
  setAutomaticMode true [] one_sensor = Returned scheduling ∧
  active_contexts scheduling = 1%nat ∧
  setAutomaticMode false [[BgStep 0]] scheduling = Returned idle ∧
  active_contexts idle = 0%nat ∧
  setAutomaticMode true [] idle
  = Raised RuntimeError (reset_all (with_automaticEnabled true idle)) ∧
  active_contexts (final (setAutomaticMode true [] idle)) = 0%nat ∧
  isAutomaticMode (final (setAutomaticMode true [] idle)) = true.
Proof. repeat split; reflexivity. Qed.

(** * Further properties of the scheduler *)

(** ** What a scheduler step leaves alone *)

Section scheduler_frame.
Implicit Types (w : world) (u : Ultrasonic) (t : nat) (pc : checker_pc).

(** A step that logs a visit logs the visit of a live instance. *)
Lemma step_events_live pc w :
  ∃ evs, (ultrasonicChecker_step pc w).1 = emit evs w ∧
         (evs = [] ∨ ∃ i u, sensor_at i w = Some u ∧ evs = visit_events u).
Proof.
  destruct pc as [|[|i rest] count].
  - exists []. rewrite emit_nil. split; [|by left].
    simpl. by destruct (isAutomaticMode w).
  - exists []. rewrite emit_nil. split; [|by left]. by destruct count.
  - destruct (isAutomaticMode w) eqn:Hon.
    + destruct (sensor_at i w) as [u|] eqn:Hu.
      * exists (visit_events u). rewrite (step_for_live _ _ _ _ u) by done.
        split; [done|]. right. by exists i, u.
      * exists []. rewrite step_for_dead, emit_nil; eauto.
    + exists []. rewrite step_for_disabled, emit_nil; eauto.
Qed.

Lemma thread_step_frame t w :
  automaticEnabled (thread_step t w) = automaticEnabled w ∧
  sensors (thread_step t w) = sensors w ∧
  instances (thread_step t w) = instances w ∧
  _thread (thread_step t w) = _thread w ∧
  (∀ t', t' ≠ t → threads (thread_step t w) !! t' = threads w !! t') ∧
  log w `prefix_of` log (thread_step t w).
Proof.
  destruct (thread_step_shape t w) as [->|(pc & evs & th & _ & -> & _)].
  - by repeat split.
  - repeat split; try done.
    + intros t' Hne. simpl. by rewrite list_lookup_insert_ne.
    + simpl. by apply prefix_app_r.
Qed.
End scheduler_frame.

(** X6: however many steps a scheduler thread takes, it changes neither
    the automatic flag, nor any instance (counter, units, enabled flag),
    nor the instance count, nor the thread the class refers to, nor any
    other thread object; and it only appends to the log. *)
Theorem scheduler_run_frame (t n : nat) (w : world) :
  automaticEnabled (run_thread t n w) = automaticEnabled w ∧
  sensors (run_thread t n w) = sensors w ∧
  instances (run_thread t n w) = instances w ∧
  _thread (run_thread t n w) = _thread w ∧
  (∀ t', t' ≠ t → threads (run_thread t n w) !! t' = threads w !! t') ∧
  log w `prefix_of` log (run_thread t n w).
Proof.
  revert w. induction n as [|n IH]; intros w.
  - by repeat split.
  - rewrite run_thread_S.
    destruct (IH (thread_step t w)) as (-> & -> & -> & -> & Hothers & Hlog).
    destruct (thread_step_frame t w) as (-> & -> & -> & -> & Hothers1 & Hlog1).
    repeat split; try done.
    + intros t' Hne. by rewrite Hothers, Hothers1.
    + by etrans.
Qed.

(** ** A whole pass *)

Section whole_pass.
Implicit Types (w : world) (u : Ultrasonic) (t : nat) (rest : list nat).

Lemma set_thread_emit_twice t th th' evs evs' w :
  set_thread t th' (emit evs' (set_thread t th (emit evs w)))
  = set_thread t th' (emit (evs ++ evs') w).
Proof.
  unfold set_thread, emit. simpl.
  by rewrite list_insert_insert_eq, app_assoc.
Qed.

Lemma set_thread_emit_after t th th' evs w :
  set_thread t th' (emit evs (set_thread t th w))
  = set_thread t th' (emit evs w).
Proof. unfold set_thread, emit. simpl. by rewrite list_insert_insert_eq. Qed.

Lemma set_thread_same t th w :
  threads w !! t = Some th → set_thread t th (emit [] w) = w.
Proof.
  intros Ht. rewrite emit_nil. destruct w. unfold set_thread. simpl in *.
  by rewrite list_insert_id.
Qed.

(** The slots of the registry, taken in order, give its live instances. *)
Lemma live_at_all_slots w :
  live_at (seq 0 (length (sensors w))) w = live_sensors w.
Proof.
  unfold live_at, live_sensors, sensor_at.
  assert (H : ∀ l l0 : list (option Ultrasonic),
            omap (fun i => mjoin ((l0 ++ l) !! i)) (seq (length l0) (length l))
            = omap id l).
  { induction l as [|x l IH]; intros l0; [done|]. simpl.
    rewrite list_lookup_middle by done. simpl.
    specialize (IH (l0 ++ [x])). rewrite length_app, <-app_assoc in IH.
    simpl in IH. rewrite Nat.add_1_r in IH.
    destruct x; [f_equal|]; exact IH. }
  apply (H (sensors w) []).
Qed.

(** From inside the [for], with the flag on and nobody interfering, the
    thread visits the live instances behind the remaining slots, one step
    per slot, counting each. *)
Lemma run_for_rest t rest count w :
  threads w !! t = Some (Running (InFor rest count)) →
  isAutomaticMode w = true →
  run_thread t (length rest) w
  = set_thread t (Running (InFor [] (count + length (live_at rest w))))
      (emit (concat (visit_events <$> live_at rest w)) w).
Proof.
  revert count w. induction rest as [|i rest IH]; intros count w Ht Hon.
  - simpl. rewrite Nat.add_0_r. symmetry. by apply set_thread_same.
  - pose proof (lookup_lt_Some _ _ _ Ht) as Hlt.
    simpl length. rewrite run_thread_S, (thread_step_running _ _ _ Ht).
    unfold live_at. simpl omap. fold (live_at rest w).
    destruct (sensor_at i w) as [u|] eqn:Hu.
    + rewrite (step_for_live _ _ _ _ u) by done. simpl fst. simpl snd.
      simpl after_step.
      rewrite (IH (S count)); [|by apply set_thread_lookup|done].
      change (live_at rest (set_thread t (Running (InFor rest (S count)))
                              (emit (visit_events u) w)))
        with (live_at rest w).
      rewrite set_thread_emit_twice. simpl. by rewrite Nat.add_succ_r.
    + rewrite step_for_dead by done. simpl fst. simpl snd. simpl after_step.
      rewrite (IH count); [|by apply set_thread_lookup|done].
      change (live_at rest (set_thread t (Running (InFor rest count)) w))
        with (live_at rest w).
      by rewrite set_thread_emit_after.
Qed.
End whole_pass.

(** One pass in the model, where the slots are visited by index. *)
Lemma run_whole_pass (t : nat) (w : world) :
  threads w !! t = Some (Running AtWhile) →
  isAutomaticMode w = true →
  run_thread t (length (sensors w) + 2) w
  = set_thread t (after_pass (length (live_sensors w)))
      (emit (concat (visit_events <$> live_sensors w)) w).
Proof.
  intros Ht Hon.
  pose proof (lookup_lt_Some _ _ _ Ht) as Hlt.
  replace (length (sensors w) + 2)%nat
    with (S (length (seq 0 (length (sensors w))) + 1))
    by (rewrite length_seq; lia).
  rewrite run_thread_S, (thread_step_running _ _ _ Ht). simpl fst. simpl snd.
  simpl ultrasonicChecker_step. rewrite Hon. simpl fst. simpl snd.
  simpl after_step. rewrite run_thread_add.
  rewrite (run_for_rest _ _ 0); [|by apply set_thread_lookup|done].
  change (live_at (seq 0 (length (sensors w)))
            (set_thread t (Running (InFor (seq 0 (length (sensors w))) 0)) w))
    with (live_at (seq 0 (length (sensors w))) w).
  rewrite live_at_all_slots. simpl Nat.add.
  change 1%nat with (S 0). rewrite run_thread_S.
  rewrite (thread_step_running _ (InFor [] (length (live_sensors w)))).
  - destruct (length (live_sensors w)) as [|k]; simpl;
      unfold run_thread, bg_run, set_thread, emit; simpl;
      by rewrite !list_insert_insert_eq.
  - apply set_thread_lookup. simpl. by rewrite length_insert.
Qed.

(** X5: with the flag on and nothing else happening, a scheduler thread
    that stands at the [while] test completes a pass in which every live
    instance is visited exactly once, in some order (the pulse if it is
    enabled, then the settle delay) and nothing else is asked of the
    hardware; after the pass the thread is back at the [while] test when
    there was a live instance and has finished when there was none. *)
Theorem scheduler_pass_visits_each_live_once (t : nat) (w : world)
    (Ht : threads w !! t = Some (Running AtWhile))
    (Hon : isAutomaticMode w = true) :
  ∃ n us,
    us ≡ₚ live_sensors w ∧
    run_thread t n w
    = set_thread t (after_pass (length (live_sensors w)))
        (emit (concat (visit_events <$> us)) w).
Proof.
  exists (length (sensors w) + 2)%nat, (live_sensors w).
  split; [done|]. by apply run_whole_pass.
Qed.

Lemma scheduler_pass_visits_each_live_once_witness :
  ∃ n us,
    us ≡ₚ live_sensors scheduling ∧
    run_thread 0 n scheduling
    = set_thread 0 (after_pass (length (live_sensors scheduling)))
        (emit (concat (visit_events <$> us)) scheduling).
Proof.
  exact (scheduler_pass_visits_each_live_once 0 scheduling eq_refl eq_refl).
Defined.

(** ** Disabled instances *)

Section disabled.
Implicit Types (w : world) (u : Ultrasonic) (t : nat) (e : bg_event).

Lemma bg_run1_config_back w e i u' :
  sensor_at i (bg_run1 w e) = Some u' →
  ∃ u, sensor_at i w = Some u ∧ same_config u u'.
Proof.
  destruct e as [t|j p]; simpl.
  - unfold sensor_at. rewrite (proj1 (proj2 (thread_step_frame t w))).
    intros Hu. by exists u'.
  - unfold echo_edge. destruct (sensor_at j w) as [uj|] eqn:Hj;
      [|intros Hu; by exists u'].
    destruct (decide (j = i)) as [->|Hne].
    + rewrite (sensor_at_store_eq _ _ uj) by done. intros [= <-]. by exists uj.
    + rewrite sensor_at_store_ne by done. intros Hu. by exists u'.
Qed.

Lemma bg_run1_log_live w e :
  ∃ evs, log (bg_run1 w e) = log w ++ evs ∧
         (evs = [] ∨ ∃ i u, sensor_at i w = Some u ∧ evs = visit_events u).
Proof.
  destruct e as [t|i p]; simpl.
  - destruct (threads w !! t) as [[|pc|]|] eqn:Ht;
      try (exists []; unfold thread_step; rewrite Ht, app_nil_r; by split; [|left]).
    destruct (step_events_live pc w) as (evs & Hw & Hevs).
    exists evs. split; [|done].
    by rewrite (thread_step_running _ pc), Hw.
  - exists []. rewrite app_nil_r. split; [|by left].
    unfold echo_edge. by destruct (sensor_at i w).
Qed.
End disabled.

(** X7: while every live instance is disabled, the scheduler threads
    send no pulse at all: whatever steps they take and whatever edges
    arrive, the log grows by settle delays only. *)
Theorem no_pulse_when_all_disabled (evs : list bg_event) (w : world)
    (Hoff : ∀ i u, sensor_at i w = Some u → isEnabled u = false) :
  ∃ k, log (bg_run evs w) = log w ++ replicate k (EvDelay settle_delay).
Proof.
  revert w Hoff. induction evs as [|e evs IH]; intros w Hoff.
  - exists 0%nat. simpl. by rewrite app_nil_r.
  - change (bg_run (e :: evs) w) with (bg_run evs (bg_run1 w e)).
    destruct (IH (bg_run1 w e)) as (k2 & ->).
    { intros i u' Hu'.
      destruct (bg_run1_config_back w e i u' Hu') as (u & Hu & (_ & _ & _ & He)).
      unfold isEnabled in *. rewrite He. by apply (Hoff i). }
    destruct (bg_run1_log_live w e) as (evs1 & -> & [->|(i & u & Hu & ->)]).
    + exists k2. by rewrite app_nil_r.
    + exists (S k2). rewrite visit_events_cases, (Hoff i u Hu).
      by rewrite <-app_assoc.
Qed.

Lemma no_pulse_when_all_disabled_witness :
  ∃ k, log (run_thread 0 7 (final (setEnabled 0 false scheduling)))
       = log (final (setEnabled 0 false scheduling))
         ++ replicate k (EvDelay settle_delay).
Proof.
  apply (no_pulse_when_all_disabled
           (replicate 7 (BgStep 0)) (final (setEnabled 0 false scheduling))).
  intros [|i] u Hu; [by injection Hu as <-|done].
Defined.

(** ** The enabled flag of an instance *)

(** X8: [setEnabled(b)] on a live instance returns, after which
    [isEnabled()] of that instance is [b]; its channels, units and
    counter, every other instance, the mode flag, the threads and the
    log are as before; once disabled, its visit by the scheduler is a
    settle delay without a pulse. *)
Theorem setEnabled_then_isEnabled
    (self : nat) (b : bool) (w : world) (u : Ultrasonic)
    (Hlive : sensor_at self w = Some u) :
  ∃ w' u',
    setEnabled self b w = Returned w' ∧
    sensor_at self w' = Some u' ∧
    isEnabled u' = b ∧
    pingChannel u' = pingChannel u ∧ echoChannel u' = echoChannel u ∧
    units u' = units u ∧ counter u' = counter u ∧
    (∀ j, j ≠ self → sensor_at j w' = sensor_at j w) ∧
    automaticEnabled w' = automaticEnabled w ∧
    threads w' = threads w ∧ log w' = log w ∧
    (b = false → visit_events u' = [EvDelay settle_delay]).
Proof.
  exists (with_sensors (<[self := Some (with_enabled b u)]> (sensors w)) w),
         (with_enabled b u).
  split; [unfold setEnabled; by rewrite Hlive|].
  split; [by eapply sensor_at_store_eq|].
  split; [done|]. split; [done|]. split; [done|]. split; [done|].
  split; [done|].
  split; [intros j Hj; by apply (sensor_at_store_ne self j)|].
  split; [done|]. split; [done|]. split; [done|].
  by intros ->.
Qed.

Lemma setEnabled_then_isEnabled_witness :
  ∃ w' u', setEnabled 0 false scheduling = Returned w' ∧
           sensor_at 0 w' = Some u' ∧ isEnabled u' = false.
Proof.
  destruct (setEnabled_then_isEnabled 0 false scheduling _ eq_refl)
    as (w' & u' & Hret & Hat & Hen & _).
  by exists w', u'.
Defined.

(** ** Readings in the configured unit *)

(** X9: while the range is not valid, [pidGet()] reads zero whatever
    [units] holds: the integer 0 when [units] equals [kInches], the
    float 0.0 otherwise (millimetres or an unrecognized value). *)
Theorem pidGet_zero_when_invalid (u : Ultrasonic)
    (Hinvalid : isRangeValid u = false) :
  pidGet u = (if py_eq_int (units u) Unit.kInches then Int 0 else Float 0).
Proof.
  unfold pidGet, getRangeMM, getRangeInches. rewrite Hinvalid.
  destruct (py_eq_int (units u) Unit.kInches); [done|].
  by destruct (py_eq_int (units u) Unit.kMillimeters).
Qed.

Lemma pidGet_zero_when_invalid_witness :
  pidGet (sample_sensor 1 (PyBool true)) = Float 0 ∧
  pidGet (sample_sensor 0 (PyNum (Float 0))) = Int 0.
Proof.
  split.
  - exact (pidGet_zero_when_invalid (sample_sensor 1 (PyBool true)) eq_refl).
  - exact (pidGet_zero_when_invalid (sample_sensor 0 (PyNum (Float 0))) eq_refl).
Defined.

(** ** What the constructor does to the class state *)

Section constructor.
Implicit Types (w : world) (v : pyval) (t : nat).

Lemma init_sensor_at_old p e v w i :
  i ≠ length (sensors w) →
  sensor_at i (__init__ p e v w).2 = sensor_at i w.
Proof.
  intros Hne. unfold sensor_at. rewrite init_sensors.
  destruct (decide (i < length (sensors w))%nat) as [Hlt|Hge].
  - by rewrite lookup_app_l.
  - rewrite !lookup_ge_None_2; [done|lia|].
    rewrite length_app. simpl. lia.
Qed.

(** The current thread is alive: it is kept. *)
Lemma init_thread_kept p e v w t :
  _thread w = Some t → is_alive t w = true →
  _thread (__init__ p e v w).2 = Some t ∧
  threads (__init__ p e v w).2 = threads w.
Proof. intros Ht Ha. unfold __init__. by rewrite Ht, Ha. Qed.

(** There is no thread, or the current one is not alive: a new one. *)
Lemma init_thread_fresh p e v w :
  (∀ t, _thread w = Some t → is_alive t w = false) →
  _thread (__init__ p e v w).2 = Some (length (threads w)) ∧
  threads (__init__ p e v w).2 = threads w ++ [Initial].
Proof.
  intros Hdead. unfold __init__. destruct (_thread w) as [t|]; [|done].
  by rewrite (Hdead t eq_refl).
Qed.

Lemma init_instances p e v w :
  instances (__init__ p e v w).2 = S (instances w).
Proof.
  unfold __init__.
  destruct (_thread w) as [t|]; [destruct (is_alive t w)|]; reflexivity.
Qed.

Lemma init_log p e v w :
  log (__init__ p e v w).2
  = log w ++ [EvCounterReset (length (sensors w));
              EvHALReport (S (instances w));
              EvLiveWindow e (length (sensors w))].
Proof.
  unfold __init__.
  destruct (_thread w) as [t|]; [destruct (is_alive t w)|]; simpl;
    by rewrite <-!app_assoc.
Qed.

Lemma active_contexts_app_Initial l :
  filter (fun th => thread_alive th = true) (l ++ [Initial])
  = filter (fun th => thread_alive th = true) l.
Proof. rewrite filter_app. simpl. by rewrite app_nil_r. Qed.
End constructor.

(** X10: the constructor registers the new instance in the next free
    slot, enabled and with a counter that reads zero (so its range is
    not valid); it leaves every other instance and the mode flag as they
    are, adds one to the instance count and reports that count; it keeps
    the current thread when that thread is alive and otherwise makes the
    class refer to a new thread that is not started, so the number of
    running schedulers does not change. *)
Theorem init_registers_instance (p e : Z) (v : pyval) (w : world) :
  (__init__ p e v w).1 = length (sensors w) ∧
  (∃ u, sensor_at (length (sensors w)) (__init__ p e v w).2 = Some u ∧
        pingChannel u = p ∧ echoChannel u = e ∧
        isEnabled u = true ∧ isRangeValid u = false) ∧
  (∀ i, i ≠ length (sensors w) →
        sensor_at i (__init__ p e v w).2 = sensor_at i w) ∧
  automaticEnabled (__init__ p e v w).2 = automaticEnabled w ∧
  instances (__init__ p e v w).2 = S (instances w) ∧
  log (__init__ p e v w).2
  = log w ++ [EvCounterReset (length (sensors w));
              EvHALReport (S (instances w));
              EvLiveWindow e (length (sensors w))] ∧
  active_contexts (__init__ p e v w).2 = active_contexts w ∧
  (∀ t, _thread w = Some t → is_alive t w = true →
        _thread (__init__ p e v w).2 = Some t ∧
        threads (__init__ p e v w).2 = threads w) ∧
  ((∀ t, _thread w = Some t → is_alive t w = false) →
     _thread (__init__ p e v w).2 = Some (length (threads w)) ∧
     threads (__init__ p e v w).2 = threads w ++ [Initial]).
Proof.
  split; [done|]. split.
  { eexists. split; [apply (init_sensor_at p e v w)|]. done. }
  split; [intros i; apply init_sensor_at_old|].
  split; [apply init_automaticEnabled|].
  split; [apply init_instances|]. split; [apply init_log|].
  split; [|split; [intros t; apply init_thread_kept|apply init_thread_fresh]].
  unfold active_contexts. destruct (_thread w) as [t|] eqn:Ht.
  - destruct (is_alive t w) eqn:Ha.
    + by rewrite (proj2 (init_thread_kept p e v w t Ht Ha)).
    + destruct (init_thread_fresh p e v w) as [_ ->].
      * intros t' Ht'. congruence.
      * by rewrite active_contexts_app_Initial.
  - destruct (init_thread_fresh p e v w) as [_ ->].
    + intros t' Ht'. congruence.
    + by rewrite active_contexts_app_Initial.
Qed.

Lemma init_registers_instance_witness :
  _thread (__init__ 3 4 PyNone scheduling).2 = Some 0%nat ∧
  _thread (__init__ 3 4 PyNone idle).2 = Some 1%nat.
Proof.
  split.
  - exact (proj1 (proj1 (proj2 (proj2 (proj2 (proj2 (proj2 (proj2 (proj2
             (init_registers_instance 3 4 PyNone scheduling))))))))
             0%nat eq_refl eq_refl)).
  - refine (proj1 (proj2 (proj2 (proj2 (proj2 (proj2 (proj2 (proj2 (proj2
              (init_registers_instance 3 4 PyNone idle)))))))) _)).
    by intros t [= <-].
Defined.

(** ** Manual mode *)

(** X11: when the scheduler thread is not alive, [ping()] on a live
    instance returns without sleeping, whatever happens in the
    background: the log grows by the reset of every live counter, the
    reset of this counter and one pulse of [kPingTime] on its ping
    channel; the flag is off afterwards, no thread object has changed and
    no instance has a valid range. *)
Theorem ping_in_manual_mode
    (self : nat) (polls : list (list bg_event)) (w : world)
    (u : Ultrasonic) (t : nat)
    (Hlive : sensor_at self w = Some u)
    (Ht : _thread w = Some t) (Hidle : is_alive t w = false) :
  ∃ w', ping self polls w = Returned w' ∧
        log w' = log w ++ (EvCounterReset <$> live_ids w)
                 ++ [EvCounterReset self; EvPulse (pingChannel u) kPingTime] ∧
        isAutomaticMode w' = false ∧
        threads w' = threads w ∧
        ∀ i u', sensor_at i w' = Some u' → isRangeValid u' = false.
Proof.
  assert (Hdis : setAutomaticMode false polls w
                 = Returned (reset_all (with_automaticEnabled false w))).
  { rewrite setAutomaticMode_disable. by rewrite (wait_stopped_dead _ _ t). }
  assert (Hu1 : sensor_at self (reset_all (with_automaticEnabled false w))
                = Some (counter_reset u)).
  { rewrite reset_all_sensor_at.
    change (sensor_at self (with_automaticEnabled false w))
      with (sensor_at self w).
    by rewrite Hlive. }
  eexists. split; [by apply (ping_after_disable _ _ _ _ _ Hdis Hu1)|].
  split; [simpl; by rewrite <-app_assoc|]. split; [done|]. split; [done|].
  intros i u' Hu'. eapply ping_resets; [|exact Hu'].
  by apply (ping_after_disable _ _ _ _ _ Hdis Hu1).
Qed.

Lemma ping_in_manual_mode_witness :
  ∃ w', ping 0 [] one_sensor = Returned w' ∧
        log w' = log one_sensor ++ [EvCounterReset 0%nat]
                 ++ [EvCounterReset 0%nat; EvPulse 1 kPingTime].
Proof.
  destruct (ping_in_manual_mode 0 [] one_sensor _ 0 eq_refl eq_refl eq_refl)
    as (w' & Hret & Hlog & _).
  by exists w'.
Defined.

(** ** The flag after a mode switch *)

(** X12: whenever [setAutomaticMode(b)] returns, [isAutomaticMode()] is
    [b]; and when it returns having switched the mode on, the thread the
    class refers to is alive. *)
Theorem setAutomaticMode_sets_flag
    (b : bool) (polls : list (list bg_event)) (w w' : world)
    (Hret : setAutomaticMode b polls w = Returned w') :
  isAutomaticMode w' = b ∧
  (b = true → isAutomaticMode w = false →
   ∃ t, _thread w' = Some t ∧ is_alive t w' = true).
Proof.
  destruct b.
  - destruct (isAutomaticMode w) eqn:Hflag.
    + unfold setAutomaticMode in Hret. rewrite Hflag in Hret.
      injection Hret as <-. by split.
    + rewrite setAutomaticMode_enable in Hret by done.
      apply thread_start_returned in Hret as (t & Ht & Hth & ->).
      split; [done|]. intros _ _. exists t. split; [done|].
      rewrite is_alive_set_thread; [done|].
      by apply lookup_lt_Some in Hth.
  - split; [|done].
    apply disable_returned in Hret as (w1 & Hwait & ->).
    destruct (wait_stopped_post _ _ _ Hwait) as (Hoff & _). exact Hoff.
Qed.

Lemma setAutomaticMode_sets_flag_witness :
  isAutomaticMode scheduling = true ∧ isAutomaticMode idle = false.
Proof.
  split.
  - exact (proj1 (setAutomaticMode_sets_flag true [] one_sensor scheduling
                    eq_refl)).
  - exact (proj1 (setAutomaticMode_sets_flag false [[BgStep 0]] scheduling idle
                    eq_refl)).
Defined.

(** ** Starting the scheduler again *)

Section starting_again.
Implicit Types (w : world) (t : nat) (polls : list (list bg_event)).

Lemma no_context_active w : no_context w → active_contexts w = 0%nat.
Proof.
  intros Hnone. unfold active_contexts. rewrite filter_alive_nil; [done|].
  intros i th Hi. specialize (Hnone i). unfold is_alive in Hnone.
  by rewrite Hi in Hnone.
Qed.

Lemma no_context_same_threads w w' :
  threads w' = threads w → no_context w → no_context w'.
Proof. intros Hth Hnone t. unfold is_alive. rewrite Hth. apply Hnone. Qed.

Lemma scheduler_finished_same t w w' :
  threads w' = threads w → _thread w' = _thread w →
  scheduler_finished t w → scheduler_finished t w'.
Proof.
  intros Hth Ht (Hcur & Hst & Hnone). unfold scheduler_finished.
  rewrite Ht, Hth. split; [done|]. split; [done|].
  exact (no_context_same_threads w w' Hth Hnone).
Qed.

Lemma enable_when_finished t polls w :
  scheduler_finished t w →
  setAutomaticMode true polls w = Returned w ∨
  setAutomaticMode true polls w
  = Raised RuntimeError (reset_all (with_automaticEnabled true w)).
Proof.
  intros (Hcur & Hst & _). destruct (isAutomaticMode w) eqn:Hflag.
  - left. unfold setAutomaticMode. by rewrite Hflag.
  - right. rewrite setAutomaticMode_enable by done.
    by apply (thread_start_again _ t Stopped).
Qed.

Lemma disable_when_finished t polls w :
  scheduler_finished t w →
  setAutomaticMode false polls w
  = Returned (reset_all (with_automaticEnabled false w)).
Proof.
  intros (Hcur & _ & Hnone). rewrite setAutomaticMode_disable.
  rewrite (wait_stopped_dead _ _ t); [done|done|apply Hnone].
Qed.

Lemma perform_when_finished t c w :
  is_New c = false → scheduler_finished t w →
  scheduler_finished t (final (perform c w)).
Proof.
  intros Hc Hfin.
  destruct c as [p e v|[] polls|self polls|self v|self b|i|ev]; simpl; try done.
  - by destruct (enable_when_finished t polls w Hfin) as [->| ->].
  - by rewrite (disable_when_finished t polls w Hfin).
  - unfold ping. rewrite (disable_when_finished t polls w Hfin).
    by destruct (sensor_at self _).
  - unfold setDistanceUnits. destruct (sensor_at self w); [|done].
    by destruct (negb _).
  - unfold setEnabled. by destruct (sensor_at self w).
  - destruct Hfin as (Hcur & Hst & Hnone). destruct ev as [t'|j p]; simpl.
    + by rewrite thread_step_idle.
    + apply (scheduler_finished_same t w); [apply echo_edge_threads| |done].
      unfold echo_edge. by destruct (sensor_at j w).
Qed.
End starting_again.

(** X4: once the scheduler thread has finished, no sequence of calls
    that constructs no instance gets a scheduler running again: in the
    state it leads to no thread is alive, and [setAutomaticMode(True)]
    there either finds the flag on and does nothing or raises
    [RuntimeError]. *)
Theorem finished_scheduler_stays_finished
    (t : nat) (cs : list call) (w : world)
    (Hcs : forallb (fun c => negb (is_New c)) cs = true)
    (Hfin : scheduler_finished t w) :
  active_contexts (perform_all cs w) = 0%nat ∧
  ∀ polls,
    setAutomaticMode true polls (perform_all cs w)
    = Returned (perform_all cs w) ∨
    setAutomaticMode true polls (perform_all cs w)
    = Raised RuntimeError
        (reset_all (with_automaticEnabled true (perform_all cs w))).
Proof.
  assert (H : scheduler_finished t (perform_all cs w)).
  { revert w Hfin. induction cs as [|c cs IH]; intros w Hfin; [done|].
    simpl in Hcs. apply andb_prop in Hcs as [Hc Hcs].
    apply (IH Hcs). apply perform_when_finished; [|done].
    by apply negb_true_iff. }
  split.
  - apply no_context_active. by destruct H as (_ & _ & ?).
  - intros polls. by apply (enable_when_finished t).
Qed.

Lemma finished_scheduler_stays_finished_witness :
  active_contexts
    (perform_all [SetAutomaticMode true []; SetAutomaticMode false [];
                  Collect 0; SetAutomaticMode true []; Ping 0 []] idle)
  = 0%nat.
Proof.
  refine (proj1 (finished_scheduler_stays_finished 0
                   [SetAutomaticMode true []; SetAutomaticMode false [];
                    Collect 0; SetAutomaticMode true []; Ping 0 []]
                   idle eq_refl _)).
  split; [done|]. split; [done|]. by intros [|[|i]].
Defined.

(** X3: when no thread is alive and the flag is off, constructing an
    instance and then calling [setAutomaticMode(True)] returns with the
    flag on and exactly one scheduler running, on the thread object the
    constructor has just made. *)
Theorem enable_after_construction
    (p e : Z) (v : pyval) (polls : list (list bg_event)) (w : world)
    (Hnone : no_context w) (Hoff : isAutomaticMode w = false) :
  ∃ w', setAutomaticMode true polls (__init__ p e v w).2 = Returned w' ∧
        isAutomaticMode w' = true ∧
        _thread w' = Some (length (threads w)) ∧
        is_alive (length (threads w)) w' = true ∧
        active_contexts w' = 1%nat.
Proof.
  destruct (init_thread_fresh p e v w) as [Hcur Hth]; [by intros t _|].
  pose proof (init_automaticEnabled p e v w) as Hflag.
  revert Hcur Hth Hflag. generalize ((__init__ p e v w).2).
  intros w1 Hcur Hth Hflag.
  assert (Hoff1 : isAutomaticMode w1 = false)
    by (unfold isAutomaticMode; by rewrite Hflag).
  rewrite setAutomaticMode_enable by done.
  assert (Hlook : threads w1 !! length (threads w) = Some Initial)
    by (by rewrite Hth, list_lookup_middle).
  exists (set_thread (length (threads w)) (Running AtWhile)
            (reset_all (with_automaticEnabled true w1))).
  split; [unfold thread_start; simpl; by rewrite Hcur, Hlook|].
  split; [done|]. split; [done|].
  split; [rewrite is_alive_set_thread; [done|by apply lookup_lt_Some in Hlook]|].
  unfold active_contexts. simpl.
  rewrite Hth, insert_app_r_alt, Nat.sub_diag by done. simpl.
  rewrite filter_app, filter_alive_nil; [done|].
  intros i th Hi. specialize (Hnone i). unfold is_alive in Hnone.
  by rewrite Hi in Hnone.
Qed.

Lemma enable_after_construction_witness :
  ∃ w', setAutomaticMode true [] (__init__ 3 4 PyNone idle).2 = Returned w' ∧
        active_contexts w' = 1%nat.
Proof.
  destruct (enable_after_construction 3 4 PyNone [] idle)
    as (w' & Hret & _ & _ & _ & Hone).
  - by intros [|[|i]].
  - reflexivity.
  - by exists w'.
Defined.

(** X15: when the flag is on but no thread is alive (the scheduler has
    ended by itself after a pass without instances, or its restart has
    failed), [setAutomaticMode(True)] does nothing, also right after a
    new instance has been constructed: the flag reads on while no
    scheduler runs. *)
Theorem enable_is_ignored_while_flag_on
    (p e : Z) (v : pyval) (polls : list (list bg_event)) (w : world)
    (Hon : isAutomaticMode w = true) (Hnone : no_context w) :
  setAutomaticMode true polls w = Returned w ∧
  active_contexts w = 0%nat ∧
  setAutomaticMode true polls (__init__ p e v w).2
  = Returned (__init__ p e v w).2 ∧
  isAutomaticMode (__init__ p e v w).2 = true ∧
  active_contexts (__init__ p e v w).2 = 0%nat.
Proof.
  assert (Hon1 : isAutomaticMode (__init__ p e v w).2 = true)
    by (unfold isAutomaticMode; by rewrite init_automaticEnabled).
  split; [unfold setAutomaticMode; by rewrite Hon|].
  split; [by apply no_context_active|].
  split; [unfold setAutomaticMode; by rewrite Hon1|]. split; [done|].
  unfold active_contexts.
  destruct (init_thread_fresh p e v w) as [_ ->]; [by intros t _|].
  rewrite active_contexts_app_Initial. by apply no_context_active.
Qed.

Lemma enable_is_ignored_while_flag_on_witness :
  setAutomaticMode true [] (__init__ 3 4 PyNone self_stopped).2
  = Returned (__init__ 3 4 PyNone self_stopped).2 ∧
  active_contexts (__init__ 3 4 PyNone self_stopped).2 = 0%nat.
Proof.
  destruct (enable_is_ignored_while_flag_on 3 4 PyNone [] self_stopped)
    as (_ & _ & Hret & _ & Hzero).
  - reflexivity.
  - by intros [|[|i]].
  - by split.
Defined.

(** ** The registry in reachable states *)

Section registry.
Implicit Types (w : world) (t : nat) (polls : list (list bg_event)).

Lemma same_registry_refl w : same_registry w w.
Proof. done. Qed.

Lemma same_registry_trans w1 w2 w3 :
  same_registry w1 w2 → same_registry w2 w3 → same_registry w1 w3.
Proof.
  intros (?&?&?&?) (?&?&?&?). unfold same_registry. repeat split; congruence.
Qed.

Lemma bg_run1_same_registry w e : same_registry w (bg_run1 w e).
Proof.
  destruct (bg_run1_shape w e) as (_ & Ht & Hth & Hs).
  split; [|done]. destruct e as [t|i p]; simpl.
  - apply thread_step_frame.
  - unfold echo_edge. by destruct (sensor_at i w).
Qed.

Lemma bg_run_same_registry evs w : same_registry w (bg_run evs w).
Proof.
  revert w. induction evs as [|e evs IH]; intros w; [done|].
  change (bg_run (e :: evs) w) with (bg_run evs (bg_run1 w e)).
  eauto using same_registry_trans, bg_run1_same_registry.
Qed.

Lemma reset_all_same_registry w : same_registry w (reset_all w).
Proof. unfold same_registry. simpl. by rewrite length_fmap. Qed.

Lemma thread_start_same_registry w : same_registry w (final (thread_start w)).
Proof.
  unfold thread_start. destruct (_thread w) as [t|]; [|done].
  destruct (threads w !! t) as [[|pc|]|]; try done.
  unfold same_registry. simpl. by rewrite length_insert.
Qed.

Lemma wait_stopped_same_registry polls w :
  same_registry w (final (wait_stopped polls w)).
Proof.
  revert w. induction polls as [|evs polls IH]; intros w; simpl;
    destruct (_thread w) as [t|]; try done; destruct (is_alive t w); try done.
  eapply same_registry_trans; [|apply IH].
  eapply same_registry_trans; [|apply bg_run_same_registry]. done.
Qed.

Lemma setAutomaticMode_same_registry b polls w :
  same_registry w (final (setAutomaticMode b polls w)).
Proof.
  unfold setAutomaticMode. destruct (b && isAutomaticMode w); [done|].
  destruct b.
  - eapply same_registry_trans; [|apply thread_start_same_registry].
    eapply same_registry_trans; [|apply reset_all_same_registry]. done.
  - pose proof (wait_stopped_same_registry polls (with_automaticEnabled false w))
      as Hw.
    destruct (wait_stopped polls (with_automaticEnabled false w)) as [w1|e w1|w1];
      try done.
    eapply same_registry_trans; [exact Hw|apply reset_all_same_registry].
Qed.

Lemma perform_same_registry c w :
  is_New c = false → same_registry w (final (perform c w)).
Proof.
  intros Hc.
  destruct c as [p e v|b polls|self polls|self v|self b|i|ev]; simpl; try done.
  - apply setAutomaticMode_same_registry.
  - pose proof (setAutomaticMode_same_registry false polls w) as Hw.
    unfold ping.
    destruct (setAutomaticMode false polls w) as [w1|e w1|w1]; try done.
    destruct (sensor_at self w1); [|done].
    eapply same_registry_trans; [exact Hw|].
    unfold same_registry. simpl. by rewrite length_insert.
  - unfold setDistanceUnits. destruct (sensor_at self w); [|done].
    destruct (negb _); [done|].
    unfold same_registry. simpl. by rewrite length_insert.
  - unfold setEnabled. destruct (sensor_at self w); [|done].
    unfold same_registry. simpl. by rewrite length_insert.
  - unfold same_registry. simpl. by rewrite length_insert.
  - apply bg_run1_same_registry.
Qed.

Lemma registry_ok_same w w' :
  same_registry w w' → registry_ok w → registry_ok w'.
Proof.
  intros (Hi & Hs & Ht & Hth) (Hcount & Hsome & Hlt). unfold registry_ok.
  rewrite Hi, Hs, Ht, Hth. split; [done|]. split; [|done].
  intros Hne. apply Hsome. intros Hnil. apply Hne.
  apply length_zero_iff_nil. by rewrite Hs, Hnil.
Qed.

Lemma registry_ok_init p e v w :
  registry_ok w → registry_ok (__init__ p e v w).2.
Proof.
  intros (Hcount & Hsome & Hlt). unfold registry_ok.
  split; [rewrite init_instances, init_sensors, length_app, Hcount; simpl; lia|].
  destruct (_thread w) as [t|] eqn:Ht; [destruct (is_alive t w) eqn:Ha|].
  - destruct (init_thread_kept p e v w t Ht Ha) as [-> ->].
    split; [by eexists|]. intros t' [= <-]. by apply Hlt.
  - destruct (init_thread_fresh p e v w) as [-> ->];
      [intros t' Ht'; congruence|].
    split; [by eexists|]. intros t' [= <-]. rewrite length_app. simpl. lia.
  - destruct (init_thread_fresh p e v w) as [-> ->];
      [intros t' Ht'; congruence|].
    split; [by eexists|]. intros t' [= <-]. rewrite length_app. simpl. lia.
Qed.

Lemma registry_ok_reachable cs : registry_ok (perform_all cs initial_world).
Proof.
  assert (H : ∀ w, registry_ok w → registry_ok (perform_all cs w)).
  { induction cs as [|c cs IH]; intros w Hok; [done|].
    apply IH. destruct (is_New c) eqn:Hc.
    - destruct c; try done. simpl. by apply registry_ok_init.
    - eapply registry_ok_same; [by apply perform_same_registry|done]. }
  apply H. split; [done|]. split; [done|]. intros t Ht. done.
Qed.

Lemma wait_stopped_not_raised polls w e w' :
  is_Some (_thread w) → wait_stopped polls w ≠ Raised e w'.
Proof.
  revert w. induction polls as [|evs polls IH]; intros w [t Ht]; simpl;
    rewrite Ht; destruct (is_alive t w); try done.
  apply IH. rewrite (proj1 (proj2 (bg_run_shape evs _))). simpl. by eexists.
Qed.
End registry.

(** X14: in every state a program reaches, the instance count equals
    the number of slots of the registry: it counts every instance ever
    constructed and is not lowered when an instance is collected. *)
Theorem instances_counts_constructions (cs : list call) :
  instances (perform_all cs initial_world)
  = length (sensors (perform_all cs initial_world)) ∧
  instances (perform_all cs initial_world)
  = length (filter (fun c => is_New c = true) cs).
Proof.
  split; [apply registry_ok_reachable|].
  assert (H : ∀ w, instances (perform_all cs w)
                   = (instances w + length (filter (fun c => is_New c = true) cs))%nat).
  { induction cs as [|c cs IH]; intros w; [simpl; lia|].
    unfold perform_all in *. simpl foldl. rewrite IH.
    destruct (is_New c) eqn:Hc.
    - rewrite filter_cons_True by done. destruct c; try done.
      cbn [perform final length]. rewrite init_instances. lia.
    - rewrite filter_cons_False by (by rewrite Hc).
      by rewrite (proj1 (perform_same_registry c w Hc)). }
  apply (H initial_world).
Qed.

(** X13: in every state a program reaches in which an instance has
    been constructed, [setAutomaticMode(False)] does not raise (it
    returns or keeps waiting), [setAutomaticMode(True)] raises nothing
    but the [RuntimeError] of a second [start()], and [ping()] on a live
    instance does not raise. *)
Theorem mode_switch_errors_in_reachable_states
    (cs : list call) (Hsome : sensors (perform_all cs initial_world) ≠ []) :
  (∀ polls, ∃ w',
     setAutomaticMode false polls (perform_all cs initial_world) = Returned w' ∨
     setAutomaticMode false polls (perform_all cs initial_world) = Blocked w') ∧
  (∀ polls e w',
     setAutomaticMode true polls (perform_all cs initial_world) = Raised e w' →
     e = RuntimeError) ∧
  (∀ self polls,
     is_Some (sensor_at self (perform_all cs initial_world)) →
     ∃ w', ping self polls (perform_all cs initial_world) = Returned w' ∨
           ping self polls (perform_all cs initial_world) = Blocked w').
Proof.
  destruct (registry_ok_reachable cs) as (_ & Hthread & _).
  specialize (Hthread Hsome). revert Hthread.
  generalize (perform_all cs initial_world). intros w [t Ht].
  assert (Hdis : ∀ polls, ∃ w',
            setAutomaticMode false polls w = Returned w' ∨
            setAutomaticMode false polls w = Blocked w').
  { intros polls. rewrite setAutomaticMode_disable.
    pose proof (wait_stopped_not_raised polls (with_automaticEnabled false w))
      as Hnr.
    destruct (wait_stopped polls (with_automaticEnabled false w)) as [w1|e1 w1|w1].
    - eexists. by left.
    - exfalso. apply (Hnr e1 w1); [by exists t|done].
    - eexists. by right. }
  split; [done|]. split.
  - intros polls e w'. unfold setAutomaticMode.
    destruct (true && isAutomaticMode w); [done|].
    unfold thread_start. simpl. rewrite Ht.
    destruct (threads w !! t) as [[|pc|]|]; by intros [= <- _].
  - intros self polls [u Hu]. unfold ping.
    destruct (Hdis polls) as (w1 & [Hw1|Hw1]); rewrite Hw1.
    + destruct (disable_config _ _ _ _ _ Hw1 Hu) as (u1 & -> & _).
      eexists. by left.
    + eexists. by right.
Qed.

Lemma mode_switch_errors_in_reachable_states_witness :
  ∃ w', setAutomaticMode false [] one_sensor = Returned w' ∨
        setAutomaticMode false [] one_sensor = Blocked w'.
Proof.
  refine (proj1 (mode_switch_errors_in_reachable_states
                   [New 1 2 (PyNum (Int Unit.kInches))] _) []).
  discriminate.
Defined.

(** ** The failing restart, on the sample states *)

Lemma reenable_raises_witness :
  setAutomaticMode true [] idle
  = Raised RuntimeError (reset_all (with_automaticEnabled true idle)) ∧
  active_contexts (reset_all (with_automaticEnabled true idle)) = 0%nat.
Proof.
  apply (reenable_raises [[BgStep 0]] [] scheduling idle 0).
  - by intros [|[|t]].
  - reflexivity.
  - reflexivity.
  - reflexivity.
Defined.
